(** * CodeMateAI terminal: command resolution and dispatch

    A shallow embedding of the two terminals of the repository,
    [PythonTerminal] (src/index.py) and [WebTerminal]
    (src/python_terminal_submission/streamlit_app.py), and the properties of
    their dispatch, natural-language resolution and file operations.

    Strings are byte strings ([string] of the Standard Library).  The
    whitespace and case tables are the ASCII ones, so the model covers
    input lines whose non-ASCII characters are neither spaces nor cased
    letters. *)

From Stdlib Require Import Ascii String.
From stdpp Require Import gmap strings list fin_maps sorting.

(** ** Python string primitives *)

Module Py.

Definition dquote : ascii := ascii_of_nat 34.
Definition squote : ascii := ascii_of_nat 39.

(** [str.isspace] on one character: TAB..CR, FS..US and the blank. *)
Definition isspace (c : ascii) : bool :=
  let n := nat_of_ascii c in
  ((9 <=? n)%nat && (n <=? 13)%nat) || ((28 <=? n)%nat && (n <=? 32)%nat).

Definition lower_char (c : ascii) : ascii :=
  let n := nat_of_ascii c in
  if ((65 <=? n)%nat && (n <=? 90)%nat) then ascii_of_nat (n + 32) else c.

(** [s.lower()] *)
Fixpoint lower (s : string) : string :=
  match s with
  | EmptyString => EmptyString
  | String c r => String (lower_char c) (lower r)
  end.

Definition is_empty (s : string) : bool :=
  match s with EmptyString => true | String _ _ => false end.

Fixpoint lstrip_by (p : ascii -> bool) (s : string) : string :=
  match s with
  | EmptyString => EmptyString
  | String c r => if p c then lstrip_by p r else s
  end.

Fixpoint rstrip_by (p : ascii -> bool) (s : string) : string :=
  match s with
  | EmptyString => EmptyString
  | String c r =>
      let r' := rstrip_by p r in
      if p c && is_empty r' then EmptyString else String c r'
  end.

Definition strip_by (p : ascii -> bool) (s : string) : string :=
  lstrip_by p (rstrip_by p s).

(** [s.strip()] *)
Definition strip : string -> string := strip_by isspace.

Definition is_quote (c : ascii) : bool :=
  Ascii.eqb c dquote || Ascii.eqb c squote.

(** [s.strip(q)] where [q] holds the two quote characters. *)
Definition strip_quotes : string -> string := strip_by is_quote.

(** The word being read at the head of [s], and the words after it. *)
Definition push_word (w : string) (ws : list string) : list string :=
  if is_empty w then ws else w :: ws.

Fixpoint split_go (s : string) : string * list string :=
  match s with
  | EmptyString => (EmptyString, [])
  | String c r =>
      let '(w, ws) := split_go r in
      if isspace c then (EmptyString, push_word w ws) else (String c w, ws)
  end.

(** [s.split()]: the maximal runs of non-space characters. *)
Definition split (s : string) : list string :=
  let '(w, ws) := split_go s in push_word w ws.

(** [s.startswith(p)] *)
Definition startswith (s p : string) : bool := String.prefix p s.

(** [needle in hay] on strings. *)
Fixpoint contains (needle hay : string) : bool :=
  String.prefix needle hay ||
  match hay with
  | EmptyString => false
  | String _ r => contains needle r
  end.

(** [x in l] on a list of strings. *)
Definition mem (x : string) (l : list string) : bool :=
  bool_decide (x ∈ l).

(** [any(p in s for p in phrases)] *)
Definition any_in (phrases : list string) (s : string) : bool :=
  existsb (fun p => contains p s) phrases.

(** [sep.join(l)] *)
Definition join (sep : string) (l : list string) : string :=
  String.concat sep l.

(** Truth value of an optional string: [None] and [''] are false. *)
Definition truthy (o : option string) : bool :=
  match o with
  | Some s => negb (is_empty s)
  | None => false
  end.

End Py.

(** ** The deterministic resolver (streamlit_app.py) *)

Module Fallback.
Import Py.

Definition delete_verbs : list string := ["delete"; "remove"; "del"].
Definition naming_words : list string := ["named"; "called"].
Definition folder_words : list string := ["folder"; "directory"].

(** [len(original_words) == 2] and the four direct imperatives. *)
Definition two_word_rule (original_words : list string) : option string :=
  match original_words with
  | [w0; target] =>
      let action := lower w0 in
      if mem action ["delete"; "remove"; "del"] then Some ("rm " +:+ target)
      else if mem action ["create"; "make"] then Some ("touch " +:+ target)
      else if mem action ["mkdir"] then Some ("mkdir " +:+ target)
      else if mem action ["rmdir"] then Some ("rmdir " +:+ target)
      else None
  | _ => None
  end.

(** The loop of the folder-deletion branch over [enumerate(words)];
    [original_words !! S i] is [Some] exactly when
    [i + 1 < len(original_words)]. *)
Fixpoint rmdir_scan (original_words : list string) (i : nat)
    (words : list string) : option string :=
  match words with
  | [] => None
  | word :: rest =>
      match original_words !! S i with
      | Some nxt =>
          if mem word naming_words then Some ("rmdir " +:+ strip_quotes nxt)
          else if mem word folder_words then
            let next_word := strip_quotes nxt in
            if negb (mem next_word naming_words)
            then Some ("rmdir " +:+ next_word)
            else rmdir_scan original_words (S i) rest
          else rmdir_scan original_words (S i) rest
      | None => rmdir_scan original_words (S i) rest
      end
  end.

(** A word that looks like a file name, for the deletion branch. *)
Definition rm_dotted (word : string) : bool :=
  contains "." word && negb (startswith word ".") &&
  negb (mem (lower word) ["delete"; "remove"; "del"; "file"; "the"]).

Fixpoint rm_first_dotted (original_words : list string) : option string :=
  match original_words with
  | [] => None
  | word :: rest =>
      if rm_dotted word then Some ("rm " +:+ strip_quotes word)
      else rm_first_dotted rest
  end.

Fixpoint rm_keyword_scan (original_words : list string) (i : nat)
    (words : list string) : option string :=
  match words with
  | [] => None
  | word :: rest =>
      match original_words !! S i with
      | Some nxt =>
          if mem word naming_words then Some ("rm " +:+ strip_quotes nxt)
          else if String.eqb word "file" then
            let next_word := strip_quotes nxt in
            if negb (mem next_word naming_words)
            then Some ("rm " +:+ next_word)
            else rm_keyword_scan original_words (S i) rest
          else rm_keyword_scan original_words (S i) rest
      | None => rm_keyword_scan original_words (S i) rest
      end
  end.

Fixpoint rm_verb_scan (original_words : list string) (i : nat)
    (words : list string) : option string :=
  match words with
  | [] => None
  | word :: rest =>
      match original_words !! S i with
      | Some nxt =>
          if mem word delete_verbs then
            let next_word := strip_quotes nxt in
            if negb (mem next_word ["the"; "a"; "an"; "file"; "named"; "called"])
            then Some ("rm " +:+ next_word)
            else rm_verb_scan original_words (S i) rest
          else rm_verb_scan original_words (S i) rest
      | None => rm_verb_scan original_words (S i) rest
      end
  end.

(** The deletion branch: every path through it returns a command. *)
Definition deletion (cmd_lower : string) (original_words : list string)
    : string :=
  if contains "folder" cmd_lower || contains "directory" cmd_lower then
    let words := split cmd_lower in
    match rmdir_scan original_words 0 words with
    | Some r => r
    | None => "rmdir temp"
    end
  else
    match rm_first_dotted original_words with
    | Some r => r
    | None =>
        let words := split cmd_lower in
        match rm_keyword_scan original_words 0 words with
        | Some r => r
        | None =>
            match rm_verb_scan original_words 0 words with
            | Some r => r
            | None => "rm temp.txt"
            end
        end
    end.

(** The first loop of the file-creation branch; it stops ([break]) at the
    first hit and yields the stripped word, which may be empty. *)
Fixpoint touch_scan (original_words : list string) (i : nat)
    (words : list string) : option string :=
  match words with
  | [] => None
  | word :: rest =>
      match original_words !! S i with
      | Some nxt =>
          if mem word naming_words then Some (strip_quotes nxt)
          else if String.eqb word "file" && negb (mem (lower nxt) naming_words)
          then Some (strip_quotes nxt)
          else touch_scan original_words (S i) rest
      | None => touch_scan original_words (S i) rest
      end
  end.

Definition dotted (word : string) : bool :=
  contains "." word && negb (startswith word ".").

Fixpoint first_dotted (original_words : list string) : option string :=
  match original_words with
  | [] => None
  | word :: rest =>
      if dotted word then Some (strip_quotes word) else first_dotted rest
  end.

(** The extension chosen from the language words of the line. *)
Definition extension (cmd_lower : string) : string :=
  if contains "python" cmd_lower then ".py"
  else if contains "txt" cmd_lower || contains "text" cmd_lower then ".txt"
  else if contains "html" cmd_lower then ".html"
  else if contains "css" cmd_lower then ".css"
  else if contains "js" cmd_lower || contains "javascript" cmd_lower then ".js"
  else ".txt".

Definition create_file (cmd_lower : string) (original_words : list string)
    : string :=
  let words := split cmd_lower in
  let filename := touch_scan original_words 0 words in
  let filename :=
    if negb (truthy filename) then
      match first_dotted original_words with
      | Some f => Some f
      | None => filename
      end
    else filename in
  match filename with
  | Some f =>
      if negb (is_empty f) then
        if negb (contains "." f) then "touch " +:+ f +:+ extension cmd_lower
        else "touch " +:+ f
      else "touch newfile.txt"
  | None => "touch newfile.txt"
  end.

Fixpoint mkdir_scan (original_words : list string) (i : nat)
    (words : list string) : option string :=
  match words with
  | [] => None
  | word :: rest =>
      match original_words !! S i with
      | Some nxt =>
          if mem word naming_words then Some (strip_quotes nxt)
          else if mem word folder_words then
            let next_word := strip_quotes nxt in
            if negb (mem (lower next_word) naming_words)
            then Some next_word
            else mkdir_scan original_words (S i) rest
          else mkdir_scan original_words (S i) rest
      | None => mkdir_scan original_words (S i) rest
      end
  end.

Definition create_folder (cmd_lower : string) (original_words : list string)
    : string :=
  let words := split cmd_lower in
  let dirname := mkdir_scan original_words 0 words in
  if truthy dirname then "mkdir " +:+ default "" dirname
  else "mkdir newfolder".

(** The creation branch; it falls through ([None]) when the line names
    neither a file nor a folder. *)
Definition creation (cmd_lower : string) (original_words : list string)
    : option string :=
  if contains "file" cmd_lower then Some (create_file cmd_lower original_words)
  else if contains "folder" cmd_lower || contains "directory" cmd_lower
  then Some (create_folder cmd_lower original_words)
  else None.

(** The word after the first "to"/"in" that has a successor. *)
Fixpoint write_target (words : list string) : option string :=
  match words with
  | [] => None
  | word :: rest =>
      match rest with
      | nxt :: _ =>
          if mem (lower word) ["to"; "in"] then Some (strip_quotes nxt)
          else write_target rest
      | [] => write_target rest
      end
  end.

(** The words strictly between "write" and the first "to"/"in". *)
Fixpoint write_content (collecting : bool) (words : list string)
    : list string :=
  match words with
  | [] => []
  | word :: rest =>
      if String.eqb (lower word) "write" then write_content true rest
      else if mem (lower word) ["to"; "in"] then []
      else if collecting then word :: write_content collecting rest
      else write_content collecting rest
  end.

Definition writing (original_words : list string) : option string :=
  let words := original_words in
  let filename := write_target words in
  let filename :=
    if negb (truthy filename) then
      match first_dotted words with
      | Some f => Some f
      | None => filename
      end
    else filename in
  match filename with
  | Some f =>
      if negb (is_empty f) then
        let content := strip_quotes (join " " (write_content false words)) in
        if negb (is_empty content)
        then Some ("echo " +:+ content +:+ " > " +:+ f)
        else Some ("touch " +:+ f)
      else None
  | None => None
  end.

Definition listing (cmd_lower : string) : option string :=
  if any_in ["show"; "list"; "what files"; "see files"; "display files"]
       cmd_lower
  then Some "ls"
  else if any_in ["what's here"; "what is here"; "contents"] cmd_lower
  then Some "ls"
  else None.

(** [WebTerminal.parse_with_fallback_patterns] *)
Definition parse_with_fallback_patterns (command : string) : option string :=
  let cmd_lower := strip (lower command) in
  let original_words := split command in
  match two_word_rule original_words with
  | Some r => Some r
  | None =>
      if any_in ["count"; "how many"; "number of files"; "files count"]
           cmd_lower
      then Some "count"
      else if any_in ["delete"; "remove"; "del"] cmd_lower
      then Some (deletion cmd_lower original_words)
      else
        match
          (if contains "create" cmd_lower || contains "make" cmd_lower
           then creation cmd_lower original_words else None)
        with
        | Some r => Some r
        | None =>
            match
              (if contains "write" cmd_lower &&
                  (contains "to" cmd_lower || contains "in" cmd_lower)
               then writing original_words else None)
            with
            | Some r => Some r
            | None => listing cmd_lower
            end
        end
  end.

End Fallback.

(** ** The operating system: paths and the file tree

    The file tree is a finite map from absolute, normalised paths to
    nodes.  Names are resolved lexically; links, permissions and encodings
    are not modelled, so an operation fails only for what the tree holds. *)

Module OS.

(** An absolute, normalised path: its components from the root. *)
Abbreviation path := (list string).

Inductive node :=
  | File (content : string)
  | Dir.

Abbreviation filesystem := (gmap path node).

Inductive os_error :=
  | FileNotFoundError
  | FileExistsError
  | IsADirectoryError
  | NotADirectoryError
  | DirectoryNotEmpty.

Definition slash : ascii := ascii_of_nat 47.

Fixpoint components_go (s : string) : string * list string :=
  match s with
  | EmptyString => (EmptyString, [])
  | String c r =>
      let '(w, ws) := components_go r in
      if Ascii.eqb c slash then (EmptyString, w :: ws) else (String c w, ws)
  end.

(** [s.split('/')] *)
Definition components (s : string) : list string :=
  let '(w, ws) := components_go s in w :: ws.

Definition parent (p : path) : path := removelast p.

Definition normalise_step (acc : path) (c : string) : path :=
  if Py.is_empty c || String.eqb c "." then acc
  else if String.eqb c ".." then parent acc
  else acc ++ [c].

(** [os.path.normpath(os.path.join(cwd, name))] for an absolute [cwd]:
    an absolute [name] replaces [cwd], empty and dot components vanish,
    a dot-dot component drops the last one. *)
Definition resolve (cwd : path) (name : string) : path :=
  foldl normalise_step
    (if Py.startswith name "/" then [] else cwd) (components name).

Definition exists_ (fs : filesystem) (p : path) : bool :=
  bool_decide (is_Some (fs !! p)).

Definition isdir (fs : filesystem) (p : path) : bool :=
  match fs !! p with Some Dir => true | _ => false end.

Definition isfile (fs : filesystem) (p : path) : bool :=
  match fs !! p with Some (File _) => true | _ => false end.

Definition child_name (d k : path) : option string :=
  match last k with
  | Some n => if bool_decide (k = d ++ [n]) then Some n else None
  | None => None
  end.

Definition children (fs : filesystem) (d : path) : list string :=
  omap (child_name d) (fst <$> map_to_list fs).

(** [os.listdir(d)] *)
Definition listdir (fs : filesystem) (d : path)
    : os_error + list string :=
  match fs !! d with
  | Some Dir => inr (children fs d)
  | Some (File _) => inl NotADirectoryError
  | None => inl FileNotFoundError
  end.

(** What stands in the way of creating [p]: its parent must be a
    directory. *)
Definition create_at (fs : filesystem) (p : path) (n : node)
    : os_error + filesystem :=
  match fs !! parent p with
  | Some Dir => inr (<[p := n]> fs)
  | Some (File _) => inl NotADirectoryError
  | None => inl FileNotFoundError
  end.

(** [open(p, 'w')] followed by [write(content)] *)
Definition write_file (fs : filesystem) (p : path) (content : string)
    : os_error + filesystem :=
  match fs !! p with
  | Some Dir => inl IsADirectoryError
  | Some (File _) => inr (<[p := File content]> fs)
  | None => create_at fs p (File content)
  end.

(** [open(p, 'a')] closed at once: creates an empty file when absent. *)
Definition touch_file (fs : filesystem) (p : path)
    : os_error + filesystem :=
  match fs !! p with
  | Some Dir => inl IsADirectoryError
  | Some (File _) => inr fs
  | None => create_at fs p (File "")
  end.

(** [open(p, 'r').read()] *)
Definition read_file (fs : filesystem) (p : path) : os_error + string :=
  match fs !! p with
  | Some (File content) => inr content
  | Some Dir => inl IsADirectoryError
  | None => inl FileNotFoundError
  end.

(** [os.remove(p)] *)
Definition remove (fs : filesystem) (p : path) : os_error + filesystem :=
  match fs !! p with
  | Some (File _) => inr (delete p fs)
  | Some Dir => inl IsADirectoryError
  | None => inl FileNotFoundError
  end.

(** [os.rmdir(p)] *)
Definition rmdir (fs : filesystem) (p : path) : os_error + filesystem :=
  match fs !! p with
  | Some Dir =>
      match children fs p with
      | [] => inr (delete p fs)
      | _ :: _ => inl DirectoryNotEmpty
      end
  | Some (File _) => inl NotADirectoryError
  | None => inl FileNotFoundError
  end.

(** [os.makedirs(p, exist_ok=True)]: walks down from the root and
    creates every missing directory on the way. *)
Fixpoint makedirs_go (fs : filesystem) (done : path) (todo : list string)
    : os_error + filesystem :=
  match todo with
  | [] => inr fs
  | c :: rest =>
      let q := done ++ [c] in
      match fs !! q with
      | Some Dir => makedirs_go fs q rest
      | Some (File _) =>
          inl (match rest with
               | [] => FileExistsError
               | _ :: _ => NotADirectoryError
               end)
      | None => makedirs_go (<[q := Dir]> fs) q rest
      end
  end.

Definition makedirs (fs : filesystem) (p : path) : os_error + filesystem :=
  makedirs_go fs [] p.

(** [shutil.rmtree(p)] on a directory: [p] and everything below it. *)
Definition rmtree (fs : filesystem) (p : path) : filesystem :=
  filter (fun kv => ¬ (p `prefix_of` kv.1)) fs.

End OS.

(** ** The web terminal (streamlit_app.py) *)

Module WebTerminal.
Import Py OS.

(** One line of a multi-target command's report. *)
Inductive target_line :=
  | DirectoryCreated (name : string)
  | ErrorCreatingDirectory (name : string) (e : os_error)
  | FileTouched (name : string)
  | ErrorCreatingFile (name : string) (e : os_error)
  | FileContents (name : string) (content : string)
  | CatFileNotFound (name : string)
  | ErrorReadingFile (name : string) (e : os_error)
  | FileRemoved (name : string)
  | CannotRemoveDirectory (name : string)
  | RmFileNotFound (name : string)
  | ErrorRemovingFile (name : string) (e : os_error)
  | DirectoryRemoved (name : string)
  | DirectoryNotEmptyLine (name : string)
  | DirectoryNotFound (name : string)
  | ErrorRemovingDirectory (name : string) (e : os_error)
  | DirectoryAndContentsRemoved (name : string).

(** What [execute_command] returns. *)
Inductive result :=
  | NoResult
  | HelpText
  | CurrentDirectory (p : path)
  | DirectoryEmpty
  | DirectoryContents (items : list (string * bool))
  | ErrorListing (e : os_error)
  | FileCount (files dirs total : nat)
  | ErrorCounting (e : os_error)
  | Report (lines : list target_line)
  | Text (s : string)
  | ContentWritten (filename : string)
  | ErrorWriting (e : os_error)
  | EditUsage
  | FileEdited (filename : string)
  | ErrorEditing (filename : string) (e : os_error)
  | ScreenCleared
  | NoHistory
  | History (last : list string)
  | AiStatus (active : bool)
  | NotUnderstood
  | CommandCompleted (code : Z)
  | CommandNotAvailable (command : string)
  | CommandError.

(** Lines the terminal itself appends to [terminal_output]. *)
Inductive notice :=
  | Interpreting (natural_cmd : string)
  | KeyValidationFailed
  | AiApiError.

(** What one call of the text-generation service comes to: a response
    with status 200 (with the text of its first candidate, if it has
    one), a response with another status, or an exception of the
    request (a timeout, a transport error). *)
Inductive api_reply :=
  | Ok200 (text : option string)
  | NonSuccess
  | RequestFailed.

Record shell_outcome := {
  sh_fs : filesystem;
  sh_completed : option (string * Z)
}.

(** A [WebTerminal] with what it works on: the file tree under its
    working directory, the prerequisites of the remote strategy (a key and
    the requests library, [api_ready]), the flag [ai_enabled], and the three
    lists kept in the Streamlit session.  [api_calls] counts the requests
    made so far; it is what the replies of the service may depend on.  The
    log keeps the lines without their timestamps. *)
Record state := {
  fs : filesystem;
  current_directory : path;
  api_ready : bool;
  ai_enabled : bool;
  api_calls : nat;
  command_history : list string;
  session_log : list string;
  terminal_output : list notice
}.

Definition with_fs (st : state) (fs' : filesystem) : state :=
  {| fs := fs'; current_directory := current_directory st;
     api_ready := api_ready st; ai_enabled := ai_enabled st;
     api_calls := api_calls st; command_history := command_history st;
     session_log := session_log st; terminal_output := terminal_output st |}.

Definition with_output (st : state) (out : list notice) : state :=
  {| fs := fs st; current_directory := current_directory st;
     api_ready := api_ready st; ai_enabled := ai_enabled st;
     api_calls := api_calls st; command_history := command_history st;
     session_log := session_log st; terminal_output := out |}.

Definition say (st : state) (n : notice) : state :=
  with_output st (terminal_output st ++ [n]).

(** The first statements of [execute_command]: both logs grow by the
    line, without a bound. *)
Definition log_command (st : state) (command_line : string) : state :=
  {| fs := fs st; current_directory := current_directory st;
     api_ready := api_ready st; ai_enabled := ai_enabled st;
     api_calls := api_calls st;
     command_history := command_history st ++ [command_line];
     session_log := session_log st ++ [command_line];
     terminal_output := terminal_output st |}.

Definition natural_indicators : list string :=
  [ "how"; "what"; "where"; "when"; "why"; "who"; "which";
    "can you"; "could you"; "please"; "i want"; "i need"; "i would"; "i'd";
    "show me"; "tell me"; "give me"; "help me"; "find me";
    "create"; "make"; "build"; "generate"; "add"; "remove"; "delete";
    "count"; "list"; "display"; "print"; "open"; "close";
    "files"; "folders"; "directories"; "project"; "items" ].

Definition common_words : list string :=
  ["the"; "a"; "an"; "is"; "are"; "in"; "on"; "at"; "to"; "for"; "of"; "with"].

(** [WebTerminal.looks_like_natural_language] *)
Definition looks_like_natural_language (command : string) : bool :=
  let cmd_lower := strip (lower command) in
  if any_in natural_indicators cmd_lower then true
  else
    let words := split cmd_lower in
    if bool_decide (2 < length words) then
      if existsb (fun word => mem word common_words) words then true
      else false
    else false.

(** The per-target loop of the multi-target commands. *)
Fixpoint for_each (f : filesystem -> string -> filesystem * target_line)
    (fs0 : filesystem) (args : list string)
    : filesystem * list target_line :=
  match args with
  | [] => (fs0, [])
  | a :: rest =>
      let '(fs1, l) := f fs0 a in
      let '(fs2, ls) := for_each f fs1 rest in
      (fs2, l :: ls)
  end.

Section Commands.
Variable cwd : path.

Definition mkdir_one (fs0 : filesystem) (dirname : string)
  : filesystem * target_line :=
  match makedirs fs0 (resolve cwd dirname) with
  | inr fs1 => (fs1, DirectoryCreated dirname)
  | inl e => (fs0, ErrorCreatingDirectory dirname e)
  end.

Definition cmd_mkdir := for_each mkdir_one.

Definition touch_one (fs0 : filesystem) (filename : string)
  : filesystem * target_line :=
  match touch_file fs0 (resolve cwd filename) with
  | inr fs1 => (fs1, FileTouched filename)
  | inl e => (fs0, ErrorCreatingFile filename e)
  end.

Definition cmd_touch := for_each touch_one.

Definition cat_one (fs0 : filesystem) (filename : string)
  : filesystem * target_line :=
  match read_file fs0 (resolve cwd filename) with
  | inr content => (fs0, FileContents filename content)
  | inl FileNotFoundError => (fs0, CatFileNotFound filename)
  | inl e => (fs0, ErrorReadingFile filename e)
  end.

Definition cmd_cat := for_each cat_one.

Definition rm_one (fs0 : filesystem) (filename : string)
  : filesystem * target_line :=
  let p := resolve cwd filename in
  if isfile fs0 p then
  match remove fs0 p with
  | inr fs1 => (fs1, FileRemoved filename)
  | inl e => (fs0, ErrorRemovingFile filename e)
  end
  else if isdir fs0 p then (fs0, CannotRemoveDirectory filename)
  else (fs0, RmFileNotFound filename).

Definition cmd_rm := for_each rm_one.

Definition rmdir_one (fs0 : filesystem) (dirname : string)
  : filesystem * target_line :=
  let p := resolve cwd dirname in
  if isdir fs0 p then
  match listdir fs0 p with
  | inr (_ :: _) => (fs0, DirectoryNotEmptyLine dirname)
  | inr [] =>
        match rmdir fs0 p with
        | inr fs1 => (fs1, DirectoryRemoved dirname)
        | inl e => (fs0, ErrorRemovingDirectory dirname e)
        end
  | inl e => (fs0, ErrorRemovingDirectory dirname e)
  end
  else (fs0, DirectoryNotFound dirname).

Definition cmd_rmdir := for_each rmdir_one.

Definition rmdir_force_one (fs0 : filesystem) (dirname : string)
  : filesystem * target_line :=
  let p := resolve cwd dirname in
  if isdir fs0 p then (rmtree fs0 p, DirectoryAndContentsRemoved dirname)
  else (fs0, DirectoryNotFound dirname).

Definition cmd_rmdir_force := for_each rmdir_force_one.

(** [args.index(">")] *)
Fixpoint index_of (x : string) (args : list string) : option nat :=
  match args with
  | [] => None
  | a :: rest =>
      if String.eqb a x then Some 0 else S <$> index_of x rest
  end.

(** [WebTerminal.cmd_echo] *)
Definition cmd_echo (fs0 : filesystem) (args : list string)
  : filesystem * result :=
  if bool_decide (length args < 3) || negb (mem ">" args)
  then (fs0, Text (join " " args))
  else
  match index_of ">" args with
  | Some redirect_index =>
        let content := join " " (take redirect_index args) in
        let filename := default "output.txt" (args !! S redirect_index) in
        match write_file fs0 (resolve cwd filename) content with
        | inr fs1 => (fs1, ContentWritten filename)
        | inl e => (fs0, ErrorWriting e)
        end
  | None => (fs0, Text (join " " args))
  end.

(** [WebTerminal.cmd_edit] *)
Definition cmd_edit (fs0 : filesystem) (args : list string)
  : filesystem * result :=
  match args with
  | [] => (fs0, EditUsage)
  | filename :: rest =>
      let content := join " " rest in
      match write_file fs0 (resolve cwd filename) content with
      | inr fs1 => (fs1, FileEdited filename)
      | inl e => (fs0, ErrorEditing filename e)
      end
  end.

(** [WebTerminal.cmd_ls] *)
Definition cmd_ls (fs0 : filesystem) : result :=
  match listdir fs0 cwd with
  | inr [] => DirectoryEmpty
  | inr items =>
      DirectoryContents
        ((fun item => (item, isdir fs0 (resolve cwd item)))
           <$> merge_sort String.le items)
  | inl e => ErrorListing e
  end.

(** [WebTerminal.cmd_count] *)
Definition cmd_count (fs0 : filesystem) : result :=
  match listdir fs0 cwd with
  | inr items =>
      let files := filter (fun item => isfile fs0 (resolve cwd item)) items in
      let dirs := filter (fun item => isdir fs0 (resolve cwd item)) items in
      FileCount (length files) (length dirs) (length items)
  | inl e => ErrorCounting e
  end.

End Commands.

(** [WebTerminal.cmd_history]: the last ten lines. *)
Definition cmd_history (st : state) : result :=
  match command_history st with
  | [] => NoHistory
  | h => History (drop (length h - 10) h)
  end.

(** The command a line names and the arguments it is called with: the
    chain of comparisons at the head of [execute_command]. *)
Inductive builtin :=
  | Help
  | Pwd
  | Ls
  | Count
  | Mkdir (args : list string)
  | Touch (args : list string)
  | Cat (args : list string)
  | Rm (args : list string)
  | RmdirForce (dirs : list string)
  | Rmdir (args : list string)
  | Echo (args : list string)
  | Edit (args : list string)
  | Clear
  | ShowHistory
  | Ai.

Definition lookup_builtin (args : list string) : option builtin :=
  let command := hd "" args in
  let has_operand := bool_decide (1 < length args) in
  if mem command ["help"] then Some Help
  else if mem command ["pwd"] then Some Pwd
  else if mem command ["ls"; "dir"] then Some Ls
  else if String.eqb command "count" then Some Count
  else if String.eqb command "mkdir" && has_operand then Some (Mkdir (tail args))
  else if String.eqb command "touch" && has_operand then Some (Touch (tail args))
  else if String.eqb command "cat" && has_operand then Some (Cat (tail args))
  else if mem command ["rm"; "del"] && has_operand then Some (Rm (tail args))
  else if String.eqb command "rmdir" && has_operand then
    if mem "-r" args
    then Some (RmdirForce
                 (filter (fun arg => negb (String.eqb arg "-r")) (tail args)))
    else Some (Rmdir (tail args))
  else if String.eqb command "echo" then Some (Echo (tail args))
  else if String.eqb command "edit" && has_operand then Some (Edit (tail args))
  else if String.eqb command "clear" then Some Clear
  else if String.eqb command "history" then Some ShowHistory
  else if String.eqb command "ai" then Some Ai
  else None.

Definition report (st : state) (r : filesystem * list target_line)
    : state * result :=
  (with_fs st r.1, Report r.2).

Definition run_builtin (st : state) (b : builtin) : state * result :=
  let cwd := current_directory st in
  match b with
  | Help => (st, HelpText)
  | Pwd => (st, CurrentDirectory cwd)
  | Ls => (st, cmd_ls cwd (fs st))
  | Count => (st, cmd_count cwd (fs st))
  | Mkdir args => report st (cmd_mkdir cwd (fs st) args)
  | Touch args => report st (cmd_touch cwd (fs st) args)
  | Cat args => report st (cmd_cat cwd (fs st) args)
  | Rm args => report st (cmd_rm cwd (fs st) args)
  | RmdirForce dirs => report st (cmd_rmdir_force cwd (fs st) dirs)
  | Rmdir args => report st (cmd_rmdir cwd (fs st) args)
  | Echo args =>
      let '(fs1, r) := cmd_echo cwd (fs st) args in (with_fs st fs1, r)
  | Edit args =>
      let '(fs1, r) := cmd_edit cwd (fs st) args in (with_fs st fs1, r)
  | Clear => (with_output st [], ScreenCleared)
  | ShowHistory => (st, cmd_history st)
  | Ai => (st, AiStatus (ai_enabled st))
  end.

(** Where [execute_command] sends a line. *)
Inductive route :=
  | Builtin (b : builtin)
  | NaturalLanguage
  | SystemCommand.

Definition classify (command_line : string) : route :=
  match lookup_builtin (split command_line) with
  | Some b => Builtin b
  | None =>
      if looks_like_natural_language command_line then NaturalLanguage
      else SystemCommand
  end.

Section Dispatch.
(** The text-generation service: its reply to the request made for a
  line, given how many requests the session made before. *)
Variable gemini : nat -> string -> api_reply.
(** The system shell, for the commands passed through to it. *)
Variable shell : string -> path -> filesystem -> shell_outcome.

(** [WebTerminal.call_gemini_api] *)
Definition call_gemini_api (st : state) (command : string)
  : state * option string :=
  if negb (api_ready st) then (st, None)
  else
    let st1 :=
      {| fs := fs st; current_directory := current_directory st;
         api_ready := api_ready st; ai_enabled := ai_enabled st;
         api_calls := S (api_calls st);
         command_history := command_history st;
         session_log := session_log st;
         terminal_output := terminal_output st |} in
    match gemini (api_calls st) command with
    | Ok200 (Some text) => (st1, Some (strip text))
    | Ok200 None => (st1, None)
    | NonSuccess =>
        let st2 := say st1 KeyValidationFailed in
        ({| fs := fs st2; current_directory := current_directory st2;
            api_ready := api_ready st2; ai_enabled := false;
            api_calls := api_calls st2;
            command_history := command_history st2;
            session_log := session_log st2;
            terminal_output := terminal_output st2 |}, None)
    | RequestFailed => (say st1 AiApiError, None)
    end.

(** [WebTerminal.parse_with_gemini] *)
Definition parse_with_gemini (st : state) (command : string)
  : state * option string :=
  let '(st1, result) := call_gemini_api st command in
  match result with
  | Some r =>
      if negb (is_empty r) && negb (is_empty (strip r))
      then (st1, Some (strip r))
      else (st1, None)
  | None => (st1, None)
  end.

(** [WebTerminal.parse_natural_language] *)
Definition parse_natural_language (st : state) (command : string)
  : state * option string :=
  if ai_enabled st then parse_with_gemini st command
  else (st, Fallback.parse_with_fallback_patterns command).

(** [WebTerminal.execute_system_command] *)
Definition execute_system_command (st : state) (command_line : string)
  : state * result :=
  match split command_line with
  | command :: _ =>
      if mem command ["echo"; "date"; "whoami"] then
        let out := shell command_line (current_directory st) (fs st) in
        match sh_completed out with
        | Some (stdout, returncode) =>
            (with_fs st (sh_fs out),
             if negb (is_empty stdout) then Text stdout
             else CommandCompleted returncode)
        | None => (with_fs st (sh_fs out), CommandError)
        end
      else (st, CommandNotAvailable command)
  | [] => (st, CommandError)
  end.

(** [WebTerminal.execute_command].  The call on the resolved command is
  a call of the whole function; [fuel] bounds how deep these calls
  nest, and [None] is a run that needs more. *)
Fixpoint execute_command (fuel : nat) (st : state) (command_line : string)
  : option (state * result) :=
  if is_empty (strip command_line) then Some (st, NoResult)
  else
  let st := log_command st command_line in
  match classify command_line with
  | Builtin b => Some (run_builtin st b)
  | NaturalLanguage =>
        let '(st1, natural_cmd) := parse_natural_language st command_line in
        if truthy natural_cmd then
          let c := default "" natural_cmd in
          match fuel with
          | O => None
          | S fuel' => execute_command fuel' (say st1 (Interpreting c)) c
          end
        else Some (st1, NotUnderstood)
  | SystemCommand => Some (execute_system_command st command_line)
  end.

(** A session: the lines typed one after the other. *)
Fixpoint run_session (fuel : nat) (st : state) (lines : list string)
  : option state :=
  match lines with
  | [] => Some st
  | l :: rest =>
      match execute_command fuel st l with
      | Some (st1, _) => run_session fuel st1 rest
      | None => None
      end
  end.

End Dispatch.

End WebTerminal.

(** ** The command-line terminal (index.py) *)

Module PythonTerminal.
Import Py OS.

(** The fields of a [PythonTerminal]; [prev_directory] is an attribute
    that does not exist before the first successful [cd]. *)
Record session := {
  current_directory : path;
  prev_directory : option path;
  command_history : list string;
  running : bool
}.

(** The process as the operating system sees it: the file tree and the
    working directory of the process, against which the handlers' relative
    names are resolved ([os.chdir] keeps it in step with
    [current_directory] unless it fails). *)
Record world := {
  fs : filesystem;
  os_cwd : path
}.

Inductive message :=
  | Goodbye
  | WorkingDirectory (p : path)
  | ChangedTo (p : path)
  | CdNoSuchFileOrDirectory (p : path)
  | CdError
  | MissingOperand (command : string)
  | DirectoryCreated (name : string)
  | MkdirError (name : string) (e : os_error)
  | DirectoryRemoved (name : string)
  | RmdirError (name : string) (e : os_error)
  | FileRemoved (name : string)
  | RmNoSuchFile (name : string)
  | RmError (name : string) (e : os_error)
  | FileTouched (name : string)
  | TouchError (name : string) (e : os_error)
  | FileContents (name : string) (content : string)
  | CatError (name : string) (e : os_error)
  | Echoed (text : string)
  | HistoryListing (last : list string)
  | ParseError
  | Other.

Definition with_fs (w : world) (fs' : filesystem) : world :=
  {| fs := fs'; os_cwd := os_cwd w |}.

Fixpoint for_each (f : world -> string -> world * message)
    (w : world) (args : list string) : world * list message :=
  match args with
  | [] => (w, [])
  | a :: rest =>
      let '(w1, m) := f w a in
      let '(w2, ms) := for_each f w1 rest in
      (w2, m :: ms)
  end.

(** The history statements of [execute_command]: append, then drop the
    oldest entry when there are more than 100. *)
Definition record_history (history : list string) (command_line : string)
    : list string :=
  let history := history ++ [command_line] in
  if bool_decide (100 < length history) then drop 1 history else history.

Definition rm_one (w : world) (file_name : string) : world * message :=
  let p := resolve (os_cwd w) file_name in
  if isfile (fs w) p then
    match remove (fs w) p with
    | inr fs1 => (with_fs w fs1, FileRemoved file_name)
    | inl e => (w, RmError file_name e)
    end
  else (w, RmNoSuchFile file_name).

(** [PythonTerminal.cmd_rm] *)
Definition cmd_rm (w : world) (args : list string) : world * list message :=
  match args with
  | [] => (w, [MissingOperand "rm"])
  | _ => for_each rm_one w args
  end.

Definition mkdir_one (w : world) (dir_name : string) : world * message :=
  match makedirs (fs w) (resolve (os_cwd w) dir_name) with
  | inr fs1 => (with_fs w fs1, DirectoryCreated dir_name)
  | inl e => (w, MkdirError dir_name e)
  end.

Definition cmd_mkdir (w : world) (args : list string) : world * list message :=
  match args with
  | [] => (w, [MissingOperand "mkdir"])
  | _ => for_each mkdir_one w args
  end.

Definition rmdir_one (w : world) (dir_name : string) : world * message :=
  match rmdir (fs w) (resolve (os_cwd w) dir_name) with
  | inr fs1 => (with_fs w fs1, DirectoryRemoved dir_name)
  | inl e => (w, RmdirError dir_name e)
  end.

Definition cmd_rmdir (w : world) (args : list string) : world * list message :=
  match args with
  | [] => (w, [MissingOperand "rmdir"])
  | _ => for_each rmdir_one w args
  end.

Definition touch_one (w : world) (file_name : string) : world * message :=
  match touch_file (fs w) (resolve (os_cwd w) file_name) with
  | inr fs1 => (with_fs w fs1, FileTouched file_name)
  | inl e => (w, TouchError file_name e)
  end.

Definition cmd_touch (w : world) (args : list string) : world * list message :=
  match args with
  | [] => (w, [MissingOperand "touch"])
  | _ => for_each touch_one w args
  end.

Definition cat_one (w : world) (file_name : string) : world * message :=
  match read_file (fs w) (resolve (os_cwd w) file_name) with
  | inr content => (w, FileContents file_name content)
  | inl e => (w, CatError file_name e)
  end.

Definition cmd_cat (w : world) (args : list string) : world * list message :=
  match args with
  | [] => (w, [MissingOperand "cat"])
  | _ => for_each cat_one w args
  end.

Section Terminal.
(** The expansion of the tilde, a path string. *)
Variable home : string.
(** Directories [os.chdir] refuses although they exist. *)
Variable chdir_denied : path -> bool.
(** [shlex.split]; [None] is its [ValueError]. *)
Variable shlex_split : string -> option (list string).
(** What the handlers outside this model and the system commands do to
  the process; none of them assigns a field of the terminal. *)
Variable external : string -> world -> world.

(** The resolved absolute path of [cmd_cd]: the tilde is the home
  directory, the dash the previous directory (the current one when
  none was recorded), anything else is taken from the current
  directory. *)
Definition cd_target (s : session) (w : world) (path : string)
  : OS.path :=
  if String.eqb path "~" then resolve (os_cwd w) home
  else if String.eqb path "-"
  then default (current_directory s) (prev_directory s)
  else resolve (current_directory s) path.

(** [PythonTerminal.cmd_cd] *)
Definition cmd_cd (s : session) (w : world) (path : string)
  : session * world * message :=
  let path := cd_target s w path in
  if exists_ (fs w) path && isdir (fs w) path then
  let s1 :=
      {| current_directory := path;
         prev_directory := Some (current_directory s);
         command_history := command_history s;
         running := running s |} in
  if chdir_denied path then (s1, w, CdError)
  else (s1, {| fs := fs w; os_cwd := path |}, ChangedTo path)
  else (s, w, CdNoSuchFileOrDirectory path).

Definition dispatch (s : session) (w : world) (command_line : string)
  (command : string) (args : list string)
  : session * world * list message :=
  if mem command ["exit"; "quit"] then
  ({| current_directory := current_directory s;
        prev_directory := prev_directory s;
        command_history := command_history s;
        running := false |}, w, [Goodbye])
  else if String.eqb command "pwd" then
  (s, w, [WorkingDirectory (current_directory s)])
  else if String.eqb command "cd" then
  let '(s1, w1, m) := cmd_cd s w (hd home args) in (s1, w1, [m])
  else if String.eqb command "mkdir" then
  let '(w1, ms) := cmd_mkdir w args in (s, w1, ms)
  else if String.eqb command "rmdir" then
  let '(w1, ms) := cmd_rmdir w args in (s, w1, ms)
  else if String.eqb command "rm" then
  let '(w1, ms) := cmd_rm w args in (s, w1, ms)
  else if String.eqb command "touch" then
  let '(w1, ms) := cmd_touch w args in (s, w1, ms)
  else if String.eqb command "cat" then
  let '(w1, ms) := cmd_cat w args in (s, w1, ms)
  else if String.eqb command "echo" then
  (s, w, [Echoed (join " " args)])
  else if String.eqb command "history" then
  let h := command_history s in
  (s, w, [HistoryListing (drop (length h - 20) h)])
  else (s, external command_line w, [Other]).

(** [PythonTerminal.execute_command] *)
Definition execute_command (s : session) (w : world)
  (command_line : string) : session * world * list message :=
  if is_empty (strip command_line) then (s, w, [])
  else
  let s :=
      {| current_directory := current_directory s;
         prev_directory := prev_directory s;
         command_history := record_history (command_history s) command_line;
         running := running s |} in
  match shlex_split command_line with
  | Some (a0 :: args) => dispatch s w command_line (lower a0) args
  | Some [] => (s, w, [ParseError])
  | None => (s, w, [ParseError])
  end.

Fixpoint run_session (s : session) (w : world) (lines : list string)
  : session * world :=
  match lines with
  | [] => (s, w)
  | l :: rest =>
      let '(s1, w1, _) := execute_command s w l in run_session s1 w1 rest
  end.

End Terminal.

End PythonTerminal.

(** ** Predicates of the statements *)

Module Spec.
Import Py.

(** No character of the string is a space. *)
Fixpoint no_space (s : string) : bool :=
  match s with
  | EmptyString => true
  | String c r => negb (isspace c) && no_space r
  end.

(** The first and the last character of a phrase are not spaces. *)
Definition starts_solid (k : string) : bool :=
  match k with
  | EmptyString => false
  | String c _ => negb (isspace c)
  end.

Fixpoint ends_solid (k : string) : bool :=
  match k with
  | EmptyString => false
  | String c EmptyString => negb (isspace c)
  | String _ r => ends_solid r
  end.

(** [k] occurs in [s] as a contiguous substring. *)
Definition occurs_in (k s : string) : Prop :=
  exists pre post, s = pre +:+ k +:+ post.

(** A word as [split] yields them. *)
Definition word_ok (w : string) : Prop := no_space w = true /\ w <> "".

(** What a step leaves alone: the resolver configuration and the
    request counter. *)
Definition same_resolver (st st' : WebTerminal.state) : Prop :=
  WebTerminal.ai_enabled st' = WebTerminal.ai_enabled st /\
  WebTerminal.api_ready st' = WebTerminal.api_ready st /\
  WebTerminal.api_calls st' = WebTerminal.api_calls st.

(** The commands the deterministic resolver is said to emit: a name of
    the fixed set, and for the names that take one a target without
    spaces. *)
Inductive canonical : string -> Prop :=
  | canonical_count : canonical "count"
  | canonical_ls : canonical "ls"
  | canonical_rm t : no_space t = true -> canonical ("rm " +:+ t)
  | canonical_rmdir t : no_space t = true -> canonical ("rmdir " +:+ t)
  | canonical_touch t :
    no_space t = true -> t <> "" -> canonical ("touch " +:+ t)
  | canonical_mkdir t :
    no_space t = true -> t <> "" -> canonical ("mkdir " +:+ t)
  | canonical_echo content f :
    canonical ("echo " +:+ content +:+ " > " +:+ f).

Definition resolver_names : list string :=
  ["rm"; "touch"; "mkdir"; "rmdir"; "count"; "ls"; "echo"].

(** The names the chain of comparisons of the web terminal knows. *)
Definition builtin_names : list string :=
  ["help"; "pwd"; "ls"; "dir"; "count"; "mkdir"; "touch"; "cat"; "rm";
   "del"; "rmdir"; "echo"; "edit"; "clear"; "history"; "ai"].

(** The last [n] entries of a list. *)
Definition last_n {A} (n : nat) (l : list A) : list A :=
  drop (length l - n) l.

Definition not_blank (line : string) : Prop := is_empty (strip line) = false.

(** The classification rule in the words of the specification: a keyword
    occurs in the lowercased line, or the line has more than two words
    and one of them is a common function word. *)
Definition is_natural_language (line : string) : Prop :=
  (exists k, k ∈ WebTerminal.natural_indicators /\ occurs_in k (lower line))
  \/ (2 < length (split line) /\
      exists w, w ∈ split (lower line) /\ w ∈ WebTerminal.common_words).

End Spec.

(** ** Sample sessions *)

Module Examples.
Import OS.

Definition work_dir : path := ["w"].

(** The root and an empty working directory. *)
Definition empty_tree : filesystem := <[ [] := Dir ]> (<[ work_dir := Dir ]> ∅).

(** A working directory with a regular file [x] and a directory [d] that
    holds a file [f]. *)
Definition busy_tree : filesystem :=
  <[ ["w"; "x"] := File "" ]>
    (<[ ["w"; "d"] := Dir ]> (<[ ["w"; "d"; "f"] := File "kept" ]> empty_tree)).

(** A web session at its start, with the remote strategy on or off. *)
Definition fresh (remote : bool) (tree : filesystem) : WebTerminal.state :=
  {| WebTerminal.fs := tree;
     WebTerminal.current_directory := work_dir;
     WebTerminal.api_ready := remote;
     WebTerminal.ai_enabled := remote;
     WebTerminal.api_calls := 0;
     WebTerminal.command_history := [];
     WebTerminal.session_log := [];
     WebTerminal.terminal_output := [] |}.

(** A shell that prints nothing and touches nothing. *)
Definition quiet_shell (command_line : string) (cwd : path)
    (tree : filesystem) : WebTerminal.shell_outcome :=
  {| WebTerminal.sh_fs := tree; WebTerminal.sh_completed := Some ("", 0%Z) |}.

(** A service that answers the first request with a sentence and the
    later ones with a command. *)
Definition chatty (calls : nat) (command : string) : WebTerminal.api_reply :=
  match calls with
  | O => WebTerminal.Ok200 (Some "list everything")
  | S _ => WebTerminal.Ok200 (Some "ls")
  end.

(** A service that answers every request with the same sentence. *)
Definition parrot (calls : nat) (command : string) : WebTerminal.api_reply :=
  WebTerminal.Ok200 (Some "please").


(** A service that rejects the key. *)
Definition rejecting (calls : nat) (command : string) : WebTerminal.api_reply :=
  WebTerminal.NonSuccess.

(** A command-line session at its start. *)
Definition cli_session : PythonTerminal.session :=
  {| PythonTerminal.current_directory := work_dir;
     PythonTerminal.prev_directory := None;
     PythonTerminal.command_history := [];
     PythonTerminal.running := true |}.

Definition cli_world (tree : filesystem) : PythonTerminal.world :=
  {| PythonTerminal.fs := tree; PythonTerminal.os_cwd := work_dir |}.

Definition never_denied (p : path) : bool := false.

(** Splitting at spaces stands for [shlex.split] on lines without quotes. *)
Definition plain_split (line : string) : option (list string) :=
  Some (Py.split line).

Definition idle (command_line : string) (w : PythonTerminal.world)
    : PythonTerminal.world := w.

(** 101 lines: one [help], then a hundred times [pwd]. *)
Definition hundred_and_one : list string := "help" :: replicate 100 "pwd".

End Examples.

(** ** Further predicates and the listing of the command-line terminal *)

Module More.
Import Py OS.

(** The target a line of a report is about. *)
Definition line_target (l : WebTerminal.target_line) : string :=
  match l with
  | WebTerminal.DirectoryCreated name => name
  | WebTerminal.ErrorCreatingDirectory name _ => name
  | WebTerminal.FileTouched name => name
  | WebTerminal.ErrorCreatingFile name _ => name
  | WebTerminal.FileContents name _ => name
  | WebTerminal.CatFileNotFound name => name
  | WebTerminal.ErrorReadingFile name _ => name
  | WebTerminal.FileRemoved name => name
  | WebTerminal.CannotRemoveDirectory name => name
  | WebTerminal.RmFileNotFound name => name
  | WebTerminal.ErrorRemovingFile name _ => name
  | WebTerminal.DirectoryRemoved name => name
  | WebTerminal.DirectoryNotEmptyLine name => name
  | WebTerminal.DirectoryNotFound name => name
  | WebTerminal.ErrorRemovingDirectory name _ => name
  | WebTerminal.DirectoryAndContentsRemoved name => name
  end.


(** A name that is not absolute and has no dot-dot component. *)
Definition plain_name (name : string) : Prop :=
  startswith name "/" = false /\ ".." ∉ components name.

(** The trigger phrases of the counting and of the deletion rule. *)
Definition count_phrases : list string :=
  ["count"; "how many"; "number of files"; "files count"].

Definition deletion_phrases : list string := ["delete"; "remove"; "del"].

(** One of the phrases occurs in the lowercased line. *)
Definition mentions (phrases : list string) (line : string) : Prop :=
  exists k, k ∈ phrases /\ Spec.occurs_in k (lower line).

(** An [rm] or an [rmdir] command. *)
Definition removal (r : string) : Prop :=
  exists t, r = "rm " +:+ t \/ r = "rmdir " +:+ t.

(** What [PythonTerminal.cmd_ls] prints: the line for a missing path, or
    the entries in the order printed, each with its directory mark; the
    long format adds columns (size, time) that are left out here. *)
Inductive ls_output :=
| LsNoSuchFile (p : path)
| LsError (e : os_error)
| LsEntries (long_format : bool) (entries : list (string * bool)).

(** [PythonTerminal.cmd_ls]: the path is the first argument unless that is
    an option; a relative path is taken from the directory of the
    process. *)
Definition cmd_ls (s : PythonTerminal.session) (w : PythonTerminal.world)
    (args : list string) : ls_output :=
  let p :=
    match args with
    | a :: _ =>
        if negb (startswith a "-") then resolve (PythonTerminal.os_cwd w) a
        else PythonTerminal.current_directory s
    | [] => PythonTerminal.current_directory s
    end in
  let long_format := mem "-l" args in
  let show_all := mem "-a" args in
  if negb (exists_ (PythonTerminal.fs w) p) then LsNoSuchFile p
  else
    match listdir (PythonTerminal.fs w) p with
    | inr items =>
        let items :=
          if negb show_all
          then List.filter (fun item => negb (startswith item ".")) items
          else items in
        let items := merge_sort String.le items in
        LsEntries long_format
          ((fun item => (item, isdir (PythonTerminal.fs w) (resolve p item)))
             <$> items)
    | inl e => LsError e
    end.

End More.

(** ** Facts about the string primitives *)

Module PyFacts.
Import Py Spec.

Lemma isspace_lower_char c : isspace (lower_char c) = isspace c.
Proof. destruct c as [[] [] [] [] [] [] [] []]; reflexivity. Qed.

Lemma push_word_empty ws : push_word "" ws = ws.
Proof. reflexivity. Qed.

Lemma push_word_cons c w ws : push_word (String c w) ws = String c w :: ws.
Proof. reflexivity. Qed.

Lemma is_empty_true s : is_empty s = true <-> s = "".
Proof. destruct s; simpl; split; congruence. Qed.

Lemma is_empty_false s : is_empty s = false <-> s <> "".
Proof. destruct s; simpl; split; congruence. Qed.

Lemma is_empty_lower s : is_empty (lower s) = is_empty s.
Proof. destruct s; reflexivity. Qed.

Lemma push_word_lower w ws :
  push_word (lower w) (lower <$> ws) = lower <$> push_word w ws.
Proof. unfold push_word. rewrite is_empty_lower. destruct (is_empty w); reflexivity. Qed.

Lemma split_go_lower s :
  split_go (lower s) = (lower (split_go s).1, lower <$> (split_go s).2).
Proof.
  induction s as [|c r IH]; simpl; [reflexivity|].
  rewrite IH, isspace_lower_char.
  destruct (split_go r) as [w ws]; simpl.
  destruct (isspace c); simpl; [|reflexivity].
  f_equal. apply push_word_lower.
Qed.

(** Lowercasing moves no word boundary. *)
Lemma split_lower s : split (lower s) = lower <$> split s.
Proof.
  unfold split. rewrite split_go_lower.
  destruct (split_go s) as [w ws]; simpl. apply push_word_lower.
Qed.

Lemma no_space_app a b : no_space (a +:+ b) = no_space a && no_space b.
Proof.
  induction a as [|c r IH]; simpl; [reflexivity|].
  rewrite IH. destruct (isspace c); reflexivity.
Qed.

Lemma split_go_no_space t : no_space t = true -> split_go t = (t, []).
Proof.
  induction t as [|c r IH]; simpl; [reflexivity|].
  intros [Hc Hr]%andb_true_iff. rewrite (IH Hr).
  destruct (isspace c); [discriminate|reflexivity].
Qed.

Lemma split_no_space t : no_space t = true -> split t = push_word t [].
Proof. intros H. unfold split. rewrite (split_go_no_space t H). reflexivity. Qed.

Lemma split_go_words s :
  no_space (split_go s).1 = true /\
  Forall (fun w => no_space w = true /\ w <> "") (split_go s).2.
Proof.
  induction s as [|c r [IHw IHws]]; simpl; [split; [reflexivity|constructor]|].
  destruct (split_go r) as [w ws]; simpl in *.
  destruct (isspace c) eqn:Hc; simpl.
  - split; [reflexivity|].
    unfold push_word. destruct (is_empty w) eqn:Hw; [exact IHws|].
    constructor; [|exact IHws]. split; [exact IHw|].
    by apply is_empty_false.
  - rewrite Hc, IHw. split; [reflexivity|exact IHws].
Qed.

(** The words of a line are non-empty and hold no space. *)
Lemma split_words s : Forall (fun w => no_space w = true /\ w <> "") (split s).
Proof.
  unfold split. pose proof (split_go_words s) as [Hw Hws].
  destruct (split_go s) as [w ws]; simpl in *.
  unfold push_word. destruct (is_empty w) eqn:He; [exact Hws|].
  constructor; [|exact Hws]. split; [exact Hw|by apply is_empty_false].
Qed.

Lemma no_space_lstrip_by p s : no_space s = true -> no_space (lstrip_by p s) = true.
Proof.
  induction s as [|c r IH]; simpl; [done|].
  intros H. destruct (p c); [|exact H].
  apply IH. by apply andb_true_iff in H as [_ ?].
Qed.

Lemma no_space_rstrip_by p s : no_space s = true -> no_space (rstrip_by p s) = true.
Proof.
  induction s as [|c r IH]; simpl; [done|].
  intros [Hc Hr]%andb_true_iff.
  destruct (p c && is_empty (rstrip_by p r)); [reflexivity|].
  simpl. rewrite Hc. by apply IH.
Qed.

Lemma no_space_strip_quotes s : no_space s = true -> no_space (strip_quotes s) = true.
Proof.
  intros H. unfold strip_quotes, strip_by.
  by apply no_space_lstrip_by, no_space_rstrip_by.
Qed.

(** The trailing spaces of a line end its only word. *)
Lemma rstrip_single s w : split_go s = (w, []) -> rstrip_by isspace s = w.
Proof.
  revert w. induction s as [|c r IH]; simpl; intros w H; [congruence|].
  destruct (split_go r) as [w' ws'] eqn:Hr.
  destruct (isspace c) eqn:Hc.
  - injection H as <- Hp. unfold push_word in Hp.
    destruct (is_empty w') eqn:He; [|discriminate]. subst ws'.
    apply is_empty_true in He. subst w'.
    rewrite (IH "" eq_refl). reflexivity.
  - injection H as <- ->. rewrite (IH w' eq_refl). reflexivity.
Qed.

(** A line of one word is that word between spaces. *)
Lemma strip_single s w : split s = [w] -> strip s = w.
Proof.
  induction s as [|c r IH]; [discriminate|].
  unfold split, strip, strip_by. simpl.
  destruct (split_go r) as [w' ws'] eqn:Hr.
  destruct (isspace c) eqn:Hc.
  - rewrite push_word_empty. intros H.
    assert (Hs : split r = [w]) by (unfold split; rewrite Hr; exact H).
    specialize (IH Hs). unfold strip, strip_by in IH.
    pose proof (split_words r) as Hw. rewrite Hs in Hw.
    apply Forall_cons in Hw as [[_ Hne] _].
    destruct (rstrip_by isspace r) as [|c' r'] eqn:Hrs.
    + simpl in IH. congruence.
    + simpl. rewrite Hc. exact IH.
  - rewrite push_word_cons. intros H. injection H as <- ->.
    rewrite (rstrip_single r w' Hr). simpl. rewrite Hc. reflexivity.
Qed.

Lemma append_nil b : "" +:+ b = b.
Proof. reflexivity. Qed.

Lemma append_cons c a b : String c a +:+ b = String c (a +:+ b).
Proof. reflexivity. Qed.

Lemma append_assoc a b c : (a +:+ b) +:+ c = a +:+ b +:+ c.
Proof.
  induction a as [|x a IH]; [reflexivity|].
  rewrite !append_cons. f_equal. exact IH.
Qed.

Lemma prefix_spec k s : String.prefix k s = true <-> exists post, s = k +:+ post.
Proof.
  revert s. induction k as [|c k IH]; intros s.
  - destruct s; simpl; (split; [intros _; eexists; reflexivity|done]).
  - destruct s as [|d s]; simpl; [split; [done|intros [post H]; discriminate]|].
    destruct (ascii_dec c d) as [->|Hne].
    + rewrite IH. split; intros [post H]; exists post.
      * rewrite append_cons. by rewrite H.
      * rewrite append_cons in H. congruence.
    + split; [done|intros [post H]; rewrite append_cons in H; congruence].
Qed.

Lemma contains_nil k : contains k "" = String.prefix k "".
Proof. unfold contains. apply orb_false_r. Qed.

Lemma contains_cons k c r :
  contains k (String c r) = String.prefix k (String c r) || contains k r.
Proof. reflexivity. Qed.

(** The substring test of the code is the substring relation. *)
Lemma contains_spec k s : contains k s = true <-> occurs_in k s.
Proof.
  unfold occurs_in. induction s as [|c r IH].
  - rewrite contains_nil, prefix_spec. split.
    + intros [post H]. by exists "", post.
    + intros [pre [post H]]. destruct pre; [by exists post|discriminate].
  - rewrite contains_cons, orb_true_iff, IH, prefix_spec. split.
    + intros [[post H]|[pre [post H]]].
      * by exists "", post.
      * exists (String c pre), post. rewrite append_cons. by rewrite H.
    + intros [pre [post H]]. destruct pre as [|d pre].
      * left. by exists post.
      * right. exists pre, post. rewrite append_cons in H. congruence.
Qed.

Lemma contains_lstrip k s :
  starts_solid k = true -> contains k (lstrip_by isspace s) = contains k s.
Proof.
  intros Hk. induction s as [|c r IH]; [reflexivity|].
  simpl lstrip_by. destruct (isspace c) eqn:Hc; [|reflexivity].
  rewrite IH, contains_cons. destruct k as [|c0 k]; [discriminate|].
  simpl in Hk. simpl String.prefix.
  destruct (ascii_dec c0 c) as [->|Hne]; [|reflexivity].
  rewrite Hc in Hk. discriminate.
Qed.

Lemma rstrip_is_prefix p s : exists t, s = rstrip_by p s +:+ t.
Proof.
  induction s as [|c r [t IH]]; simpl; [by exists ""|].
  destruct (p c && is_empty (rstrip_by p r)).
  - by exists (String c r).
  - exists t. rewrite append_cons. by rewrite <- IH.
Qed.

Lemma rstrip_solid k post :
  ends_solid k = true ->
  rstrip_by isspace (k +:+ post) = k +:+ rstrip_by isspace post.
Proof.
  induction k as [|c k IH]; [discriminate|].
  destruct k as [|d k].
  - simpl. intros Hc. apply negb_true_iff in Hc.
    rewrite append_cons, !append_nil. simpl. by rewrite Hc.
  - intros Hk. specialize (IH Hk).
    rewrite (append_cons c). cbn [rstrip_by]. rewrite IH.
    rewrite !append_cons. simpl. by rewrite andb_false_r.
Qed.

Lemma rstrip_keeps pre x :
  rstrip_by isspace x <> "" ->
  rstrip_by isspace (pre +:+ x) = pre +:+ rstrip_by isspace x.
Proof.
  intros Hx. induction pre as [|c pre IH]; [reflexivity|].
  rewrite !append_cons. simpl. rewrite IH.
  destruct (pre +:+ rstrip_by isspace x) eqn:He.
  - destruct pre; [rewrite append_nil in He; contradiction|discriminate].
  - simpl. by rewrite andb_false_r.
Qed.

Lemma occurs_in_rstrip k s :
  ends_solid k = true -> occurs_in k (rstrip_by isspace s) <-> occurs_in k s.
Proof.
  intros Hk. split.
  - intros [pre [post H]]. destruct (rstrip_is_prefix isspace s) as [t Ht].
    exists pre, (post +:+ t). etrans; [exact Ht|].
    rewrite H. by rewrite !append_assoc.
  - intros [pre [post ->]]. exists pre, (rstrip_by isspace post).
    rewrite rstrip_keeps; rewrite (rstrip_solid k post Hk); [reflexivity|].
    destruct k; [discriminate|discriminate].
Qed.

(** A phrase with solid ends occurs in the trimmed line exactly when it
    occurs in the line. *)
Lemma contains_strip k s :
  starts_solid k = true -> ends_solid k = true ->
  contains k (strip s) = true <-> occurs_in k s.
Proof.
  intros Hs He. unfold strip, strip_by.
  rewrite (contains_lstrip k _ Hs), contains_spec.
  by apply occurs_in_rstrip.
Qed.

Lemma split_go_rstrip s : split_go (rstrip_by isspace s) = split_go s.
Proof.
  induction s as [|c r IH]; [reflexivity|]. simpl.
  destruct (isspace c) eqn:Hc; simpl.
  - destruct (rstrip_by isspace r) eqn:Hr; simpl.
    + rewrite <- IH. reflexivity.
    + rewrite Hc. rewrite <- IH. reflexivity.
  - rewrite Hc, IH. reflexivity.
Qed.

Lemma split_lstrip s : split (lstrip_by isspace s) = split s.
Proof.
  induction s as [|c r IH]; [reflexivity|]. simpl.
  destruct (isspace c) eqn:Hc; [|reflexivity].
  rewrite IH. unfold split. simpl. rewrite Hc.
  destruct (split_go r); reflexivity.
Qed.

(** Trimming a line moves no word boundary. *)
Lemma split_strip s : split (strip s) = split s.
Proof.
  unfold strip, strip_by. rewrite split_lstrip.
  unfold split. by rewrite split_go_rstrip.
Qed.

End PyFacts.

(** ** Facts about the deterministic resolver *)

Module FallbackFacts.
Import Py Spec PyFacts Fallback.

Lemma lookup_no_space (ow : list string) i nxt :
  Forall word_ok ow -> ow !! i = Some nxt -> no_space (strip_quotes nxt) = true.
Proof.
  intros Hall Hl. apply no_space_strip_quotes.
  by destruct (proj1 (Forall_lookup _ _) Hall i nxt Hl).
Qed.

Lemma rmdir_scan_canonical ow i ws r :
  Forall word_ok ow -> rmdir_scan ow i ws = Some r -> canonical r.
Proof.
  intros Hall. revert i. induction ws as [|word rest IH]; intros i; simpl; [done|].
  destruct (ow !! S i) as [nxt|] eqn:Hl; [|apply IH].
  pose proof (lookup_no_space ow (S i) nxt Hall Hl) as Hn.
  destruct (mem word naming_words).
  { intros [= <-]. by constructor. }
  destruct (mem word folder_words); [|apply IH].
  destruct (negb (mem (strip_quotes nxt) naming_words)); [|apply IH].
  intros [= <-]. by constructor.
Qed.

Lemma rm_first_dotted_canonical ow r :
  Forall word_ok ow -> rm_first_dotted ow = Some r -> canonical r.
Proof.
  induction 1 as [|w ow [Hw _] Hall IH]; simpl; [done|].
  destruct (rm_dotted w); [|exact IH].
  intros [= <-]. constructor. by apply no_space_strip_quotes.
Qed.

Lemma rm_keyword_scan_canonical ow i ws r :
  Forall word_ok ow -> rm_keyword_scan ow i ws = Some r -> canonical r.
Proof.
  intros Hall. revert i. induction ws as [|word rest IH]; intros i; simpl; [done|].
  destruct (ow !! S i) as [nxt|] eqn:Hl; [|apply IH].
  pose proof (lookup_no_space ow (S i) nxt Hall Hl) as Hn.
  destruct (mem word naming_words).
  { intros [= <-]. by constructor. }
  destruct (String.eqb word "file"); [|apply IH].
  destruct (negb (mem (strip_quotes nxt) naming_words)); [|apply IH].
  intros [= <-]. by constructor.
Qed.

Lemma rm_verb_scan_canonical ow i ws r :
  Forall word_ok ow -> rm_verb_scan ow i ws = Some r -> canonical r.
Proof.
  intros Hall. revert i. induction ws as [|word rest IH]; intros i; simpl; [done|].
  destruct (ow !! S i) as [nxt|] eqn:Hl; [|apply IH].
  pose proof (lookup_no_space ow (S i) nxt Hall Hl) as Hn.
  destruct (mem word delete_verbs); [|apply IH].
  destruct (negb (mem (strip_quotes nxt) _)); [|apply IH].
  intros [= <-]. by constructor.
Qed.

Lemma deletion_canonical cmd_lower ow :
  Forall word_ok ow -> canonical (deletion cmd_lower ow).
Proof.
  intros Hall. unfold deletion.
  destruct (contains "folder" cmd_lower || contains "directory" cmd_lower).
  - destruct (rmdir_scan ow 0 (split cmd_lower)) as [r|] eqn:H.
    + by eapply rmdir_scan_canonical.
    + by apply (canonical_rmdir "temp").
  - destruct (rm_first_dotted ow) as [r|] eqn:H1;
      [by eapply rm_first_dotted_canonical|].
    destruct (rm_keyword_scan ow 0 (split cmd_lower)) as [r|] eqn:H2;
      [by eapply rm_keyword_scan_canonical|].
    destruct (rm_verb_scan ow 0 (split cmd_lower)) as [r|] eqn:H3;
      [by eapply rm_verb_scan_canonical|].
    by apply (canonical_rm "temp.txt").
Qed.

Lemma touch_scan_no_space ow i ws f :
  Forall word_ok ow -> touch_scan ow i ws = Some f -> no_space f = true.
Proof.
  intros Hall. revert i. induction ws as [|word rest IH]; intros i; simpl; [done|].
  destruct (ow !! S i) as [nxt|] eqn:Hl; [|apply IH].
  pose proof (lookup_no_space ow (S i) nxt Hall Hl) as Hn.
  destruct (mem word naming_words); [by intros [= <-]|].
  destruct (String.eqb word "file" && _); [by intros [= <-]|apply IH].
Qed.

Lemma first_dotted_no_space ow f :
  Forall word_ok ow -> first_dotted ow = Some f -> no_space f = true.
Proof.
  induction 1 as [|w ow [Hw _] Hall IH]; simpl; [done|].
  destruct (dotted w); [|exact IH].
  intros [= <-]. by apply no_space_strip_quotes.
Qed.

Lemma no_space_extension c : no_space (extension c) = true.
Proof. unfold extension. repeat case_match; reflexivity. Qed.

Lemma append_not_empty a b : a <> "" -> a +:+ b <> "".
Proof. destruct a; [done|]. intros _. rewrite append_cons. discriminate. Qed.

Lemma create_file_canonical cmd_lower ow :
  Forall word_ok ow -> canonical (create_file cmd_lower ow).
Proof.
  intros Hall. unfold create_file.
  set (found := touch_scan ow 0 (split cmd_lower)).
  assert (Hfound : forall f, found = Some f -> no_space f = true)
    by (intros f; apply touch_scan_no_space, Hall).
  set (filename := if negb (truthy found) then _ else found).
  assert (Hfile : forall f, filename = Some f -> no_space f = true).
  { intros f. unfold filename. destruct (negb (truthy found)); [|apply Hfound].
    destruct (first_dotted ow) as [g|] eqn:Hd; [|apply Hfound].
    intros [= <-]. by eapply first_dotted_no_space. }
  destruct filename as [f|]; [|by apply (canonical_touch "newfile.txt")].
  specialize (Hfile f eq_refl).
  destruct (is_empty f) eqn:He; simpl; [by apply (canonical_touch "newfile.txt")|].
  apply is_empty_false in He.
  destruct (negb (contains "." f)).
  - constructor; [|by apply append_not_empty].
    by rewrite no_space_app, Hfile, no_space_extension.
  - by constructor.
Qed.

Lemma mkdir_scan_no_space ow i ws f :
  Forall word_ok ow -> mkdir_scan ow i ws = Some f -> no_space f = true.
Proof.
  intros Hall. revert i. induction ws as [|word rest IH]; intros i; simpl; [done|].
  destruct (ow !! S i) as [nxt|] eqn:Hl; [|apply IH].
  pose proof (lookup_no_space ow (S i) nxt Hall Hl) as Hn.
  destruct (mem word naming_words); [by intros [= <-]|].
  destruct (mem word folder_words); [|apply IH].
  destruct (negb (mem _ naming_words)); [by intros [= <-]|apply IH].
Qed.

Lemma create_folder_canonical cmd_lower ow :
  Forall word_ok ow -> canonical (create_folder cmd_lower ow).
Proof.
  intros Hall. unfold create_folder.
  destruct (mkdir_scan ow 0 (split cmd_lower)) as [d|] eqn:H; simpl;
    [|by apply (canonical_mkdir "newfolder")].
  destruct (is_empty d) eqn:He; simpl; [by apply (canonical_mkdir "newfolder")|].
  constructor; [by eapply mkdir_scan_no_space|by apply is_empty_false].
Qed.

Lemma write_target_no_space ow f :
  Forall word_ok ow -> write_target ow = Some f -> no_space f = true.
Proof.
  induction 1 as [|w ow _ Hall IH]; simpl; [done|].
  destruct ow as [|nxt ow']; [done|].
  destruct (mem (lower w) ["to"; "in"]); [|exact IH].
  intros [= <-]. apply no_space_strip_quotes.
  by apply Forall_cons in Hall as [[? _] _].
Qed.

Lemma writing_canonical ow r :
  Forall word_ok ow -> writing ow = Some r -> canonical r.
Proof.
  intros Hall. unfold writing.
  set (found := write_target ow).
  assert (Hfound : forall f, found = Some f -> no_space f = true)
    by (intros f; apply write_target_no_space, Hall).
  set (filename := if negb (truthy found) then _ else found).
  assert (Hfile : forall f, filename = Some f -> no_space f = true).
  { intros f. unfold filename. destruct (negb (truthy found)); [|apply Hfound].
    destruct (first_dotted ow) as [g|] eqn:Hd; [|apply Hfound].
    intros [= <-]. by eapply first_dotted_no_space. }
  destruct filename as [f|]; [|done].
  specialize (Hfile f eq_refl).
  destruct (is_empty f) eqn:Hf; simpl; [done|].
  apply is_empty_false in Hf.
  destruct (negb (is_empty (strip_quotes _))); intros [= <-].
  - constructor.
  - by constructor.
Qed.

Lemma two_word_rule_canonical ow r :
  Forall word_ok ow -> two_word_rule ow = Some r -> canonical r.
Proof.
  intros Hall. destruct ow as [|w0 [|target [|]]]; simpl; try done.
  apply Forall_cons in Hall as [_ Hall].
  apply Forall_cons in Hall as [[Hn He] _].
  repeat case_match; intros [= <-]; by constructor.
Qed.

Lemma listing_canonical cmd_lower r : listing cmd_lower = Some r -> canonical r.
Proof. unfold listing. repeat case_match; intros [= <-]; constructor. Qed.

(** Whatever the deterministic resolver returns is a canonical command. *)
Lemma fallback_canonical command r :
  parse_with_fallback_patterns command = Some r -> canonical r.
Proof.
  unfold parse_with_fallback_patterns.
  pose proof (split_words command) as Hall.
  destruct (two_word_rule (split command)) as [r0|] eqn:H2.
  { intros [= <-]. by eapply two_word_rule_canonical. }
  destruct (any_in ["count"; _; _; _] _); [intros [= <-]; constructor|].
  destruct (any_in ["delete"; _; _] _).
  { intros [= <-]. by apply deletion_canonical. }
  destruct (if contains "create" _ || _ then _ else _) as [r1|] eqn:Hc.
  { intros [= <-]. destruct (_ || _); [|done].
    unfold creation in Hc. repeat case_match; simplify_eq.
    - by apply create_file_canonical.
    - by apply create_folder_canonical. }
  destruct (if contains "write" _ && _ then _ else _) as [r2|] eqn:Hw.
  { intros [= <-]. destruct (_ && _); [|done]. by eapply writing_canonical. }
  apply listing_canonical.
Qed.

(** The first word of a canonical command is one of the seven names. *)
Lemma canonical_head r :
  canonical r -> exists c, head (split r) = Some c /\ c ∈ resolver_names.
Proof.
  unfold resolver_names.
  destruct 1 as [| |t Ht|t Ht|t Ht Hne|t Ht Hne|content f].
  - exists "count". split; [reflexivity|set_solver].
  - exists "ls". split; [reflexivity|set_solver].
  - exists "rm". split; [|set_solver].
    unfold split. rewrite !append_cons, append_nil. simpl.
    by rewrite (split_go_no_space t Ht).
  - exists "rmdir". split; [|set_solver].
    unfold split. rewrite !append_cons, append_nil. simpl.
    by rewrite (split_go_no_space t Ht).
  - exists "touch". split; [|set_solver].
    unfold split. rewrite !append_cons, append_nil. simpl.
    by rewrite (split_go_no_space t Ht).
  - exists "mkdir". split; [|set_solver].
    unfold split. rewrite !append_cons, append_nil. simpl.
    by rewrite (split_go_no_space t Ht).
  - exists "echo". split; [|set_solver].
    unfold split. rewrite !append_cons, append_nil. simpl.
    by destruct (split_go _).
Qed.
End FallbackFacts.

(** ** Facts about the dispatch of the web terminal *)

Module WebFacts.
Import Py OS Spec PyFacts Fallback FallbackFacts WebTerminal.

Lemma split_go_app_space a x :
  no_space a = true -> split_go (a +:+ String " " x) = (a, split x).
Proof.
  induction a as [|c a IH]; intros Ha.
  - rewrite append_nil. unfold split. simpl. destruct (split_go x). reflexivity.
  - simpl in Ha. apply andb_true_iff in Ha as [Hc Ha].
    rewrite append_cons. simpl. rewrite (IH Ha).
    apply negb_true_iff in Hc. by rewrite Hc.
Qed.

Lemma split_app_space a x :
  no_space a = true -> a <> "" -> split (a +:+ String " " x) = a :: split x.
Proof.
  intros Ha Hne. unfold split at 1. rewrite (split_go_app_space a x Ha).
  destruct a; [done|reflexivity].
Qed.

Lemma split_blank s : split s = [] -> strip s = "".
Proof.
  induction s as [|c r IH]; [reflexivity|].
  unfold split, strip, strip_by. simpl.
  destruct (split_go r) as [w ws] eqn:Hr.
  destruct (isspace c) eqn:Hc; [|done].
  rewrite push_word_empty. intros H.
  assert (Hs : split r = []) by (unfold split; by rewrite Hr).
  specialize (IH Hs). unfold strip, strip_by in IH.
  destruct (rstrip_by isspace r) eqn:Hrs; simpl; [reflexivity|].
  rewrite Hc. exact IH.
Qed.

Lemma strip_blank s : strip s = "" -> split s = [].
Proof. intros H. by rewrite <- split_strip, H. Qed.

Lemma split_command c t :
  no_space c = true -> c <> "" -> no_space t = true ->
  split (c +:+ " " +:+ t) = c :: push_word t [].
Proof.
  intros Hc Hne Ht. change (c +:+ " " +:+ t) with (c +:+ String " " t).
  rewrite (split_app_space c t Hc Hne).
  by rewrite (split_no_space t Ht).
Qed.

(** A canonical command is a built-in when it is re-entered; the two
    commands with a blank target are passed to the system shell. *)
Lemma classify_canonical r :
  canonical r ->
  (exists b, classify r = Builtin b) \/
  (classify r = SystemCommand /\ (r = "rm " \/ r = "rmdir ")).
Proof.
  unfold classify.
  destruct 1 as [| |t Ht|t Ht|t Ht Hne|t Ht Hne|content f].
  - left. by eexists.
  - left. by eexists.
  - destruct t as [|c t]; [right; split; [reflexivity|by left]|left].
    change ("rm " +:+ ?x) with ("rm" +:+ " " +:+ x).
    rewrite (split_command "rm" _ eq_refl ltac:(done) Ht). by eexists.
  - destruct t as [|c t]; [right; split; [reflexivity|by right]|left].
    change ("rmdir " +:+ ?x) with ("rmdir" +:+ " " +:+ x).
    rewrite (split_command "rmdir" _ eq_refl ltac:(done) Ht).
    rewrite push_word_cons. unfold lookup_builtin.
    change (hd "" ("rmdir" :: [String c t])) with "rmdir".
    cbn -[mem]. destruct (mem "-r" _); by eexists.
  - destruct t as [|c t]; [done|left].
    change ("touch " +:+ ?x) with ("touch" +:+ " " +:+ x).
    rewrite (split_command "touch" _ eq_refl ltac:(done) Ht). by eexists.
  - destruct t as [|c t]; [done|left].
    change ("mkdir " +:+ ?x) with ("mkdir" +:+ " " +:+ x).
    rewrite (split_command "mkdir" _ eq_refl ltac:(done) Ht). by eexists.
  - left.
    change ("echo " +:+ ?x) with ("echo" +:+ String " " x).
    rewrite (split_app_space "echo" (content +:+ " > " +:+ f) eq_refl ltac:(done)).
    by eexists.
Qed.

Lemma classify_canonical_not_natural r :
  canonical r -> classify r <> NaturalLanguage.
Proof.
  intros [[b H]|[H _]]%classify_canonical; rewrite H; discriminate.
Qed.

Lemma canonical_not_blank r : canonical r -> is_empty (strip r) = false.
Proof.
  intros [c [Hc _]]%canonical_head. apply is_empty_false. intros Hs.
  apply strip_blank in Hs. by rewrite Hs in Hc.
Qed.

Section DispatchFacts.
Variable gemini : nat -> string -> api_reply.
Variable shell : string -> path -> filesystem -> shell_outcome.

Lemma run_builtin_resolver st b :
  same_resolver st (run_builtin st b).1 /\
  command_history (run_builtin st b).1 = command_history st.
Proof.
  unfold same_resolver, run_builtin, report.
  destruct b; simpl; try done;
  by destruct (cmd_echo _ _ _) || by destruct (cmd_edit _ _ _).
Qed.

Lemma system_command_resolver st line :
  same_resolver st (execute_system_command shell st line).1 /\
  command_history (execute_system_command shell st line).1
  = command_history st.
Proof.
  unfold same_resolver, execute_system_command.
  repeat case_match; done.
Qed.

(** A line that is not natural language needs no nested call. *)
Lemma execute_not_natural fuel st line :
  is_empty (strip line) = false -> classify line <> NaturalLanguage ->
  exists st' res,
  execute_command gemini shell fuel st line = Some (st', res) /\
  same_resolver st st' /\
  command_history st' = command_history st ++ [line].
Proof.
  intros Hb Hc. destruct fuel; simpl; rewrite Hb.
  all: destruct (classify line) as [b| |] eqn:Hcl; [|done|].
  all: try (destruct (run_builtin (log_command st line) b) as [st' res] eqn:Hr;
  exists st', res; split; [done|];
  pose proof (run_builtin_resolver (log_command st line) b) as [Hs Hh];
  rewrite Hr in Hs, Hh; done).
  all: destruct (execute_system_command shell (log_command st line) line)
         as [st' res] eqn:Hr;
  exists st', res; split; [done|];
  pose proof (system_command_resolver (log_command st line) line) as [Hs Hh];
  rewrite Hr in Hs, Hh; done.
Qed.

End DispatchFacts.
End WebFacts.

Module WebFacts2.
Import Py OS Spec PyFacts Fallback FallbackFacts WebTerminal WebFacts.

Section DispatchFacts.
Variable gemini : nat -> string -> api_reply.
Variable shell : string -> path -> filesystem -> shell_outcome.

Lemma parse_deterministic st line :
  ai_enabled st = false ->
  parse_natural_language gemini st line
  = (st, parse_with_fallback_patterns line).
Proof. intros H. unfold parse_natural_language. by rewrite H. Qed.


Lemma classify_natural_not_blank line :
  classify line = NaturalLanguage -> is_empty (strip line) = false.
Proof.
  intros H. apply is_empty_false. intros Hs. apply strip_blank in Hs.
  pose proof (split_lower line) as Hl. rewrite Hs in Hl.
  apply split_blank in Hl.
  unfold classify in H. rewrite Hs in H. simpl in H.
  unfold looks_like_natural_language in H. rewrite Hl in H.
  vm_compute in H. discriminate.
Qed.



End DispatchFacts.
End WebFacts2.

(** ** Facts about the classifier *)

Module ClassifierFacts.
Import Py OS Spec PyFacts Fallback FallbackFacts WebTerminal WebFacts WebFacts2.

Lemma mem_true x l : mem x l = true <-> x ∈ l.
Proof. unfold mem. apply bool_decide_eq_true. Qed.

Ltac name_case :=
  match goal with
  | |- (if ?c then _ else _) = Some _ -> _ =>
      let E := fresh "E" in
      destruct c eqn:E;
      [intros _; try (apply andb_true_iff in E; destruct E as [E _]);
       first [apply mem_true in E | apply String.eqb_eq in E; rewrite E];
       rewrite ?elem_of_cons in *; tauto|]
  end.

Lemma lookup_builtin_names args b :
  lookup_builtin args = Some b -> hd "" args ∈ builtin_names.
Proof.
  unfold lookup_builtin, builtin_names.
  generalize (hd "" args) as command. intros command.
  repeat name_case. discriminate.
Qed.

Lemma any_in_true phrases s :
  any_in phrases s = true <-> exists k, k ∈ phrases /\ contains k s = true.
Proof.
  unfold any_in. rewrite existsb_exists.
  split; intros (k & Hk & Hc); exists k; split; try done;
    by apply list_elem_of_In.
Qed.

Lemma indicators_solid :
  Forall (fun k => starts_solid k = true /\ ends_solid k = true)
    natural_indicators.
Proof. repeat constructor. Qed.

(** The classifier computes the rule of the specification. *)
Lemma looks_like_natural_language_spec line :
  looks_like_natural_language line = true <-> is_natural_language line.
Proof.
  unfold looks_like_natural_language, is_natural_language.
  rewrite split_strip, split_lower, length_fmap.
  destruct (any_in natural_indicators (strip (lower line))) eqn:Hany.
  - split; [intros _|done]. left.
    apply any_in_true in Hany as (k & Hk & Hc). exists k. split; [done|].
    destruct (proj1 (Forall_forall _ _) indicators_solid k Hk) as [Hs He].
    by apply (contains_strip k).
  - assert (Hnone : ~ exists k, k ∈ natural_indicators /\ occurs_in k (lower line)).
    { intros (k & Hk & Hc).
      destruct (proj1 (Forall_forall _ _) indicators_solid k Hk) as [Hs He].
      apply (contains_strip k _ Hs He) in Hc.
      assert (any_in natural_indicators (strip (lower line)) = true)
        by (apply any_in_true; eauto).
      congruence. }
    case_bool_decide as Hlen.
    + destruct (existsb _ _) eqn:Hex.
      * split; [intros _|done]. right. split; [done|].
        apply existsb_exists in Hex as (w & Hw & Hm).
        exists w. split; [by apply list_elem_of_In|by apply mem_true].
      * split; [done|]. intros [H|[_ (w & Hw & Hm)]]; [by destruct Hnone|].
        assert (existsb (fun word => mem word common_words)
                  (lower <$> split line) = true); [|congruence].
        apply existsb_exists. exists w.
        split; [by apply list_elem_of_In|by apply mem_true].
    + split; [done|]. intros [H|[H _]]; [by destruct Hnone|done].
Qed.

Lemma single_word_lower line c :
  split line = [c] -> strip (lower line) = lower c.
Proof.
  intros H. apply strip_single. by rewrite split_lower, H.
Qed.

(** A line whose first word is a name of the chain of comparisons, in
    the exact case, never reaches the resolver. *)
Lemma builtin_not_natural line c rest :
  split line = c :: rest -> c ∈ builtin_names ->
  classify line <> NaturalLanguage /\
  (rest <> [] -> exists b, classify line = Builtin b).
Proof.
  intros Hs Hc. unfold classify. rewrite Hs.
  destruct rest as [|a rest].
  - split; [|done].
    unfold looks_like_natural_language.
    rewrite (single_word_lower line c Hs).
    unfold builtin_names in Hc.
    repeat (apply elem_of_cons in Hc as [->|Hc]; [vm_compute; discriminate|]).
    by apply elem_of_nil in Hc.
  - assert (exists b, lookup_builtin (c :: a :: rest) = Some b) as [b Hb].
    { unfold builtin_names in Hc.
      repeat (apply elem_of_cons in Hc as [->|Hc];
              [try (by eexists);
               unfold lookup_builtin; cbn -[mem];
               destruct (mem "-r" _); by eexists|]).
      by apply elem_of_nil in Hc. }
    rewrite Hb. split; [discriminate|]. intros _. by exists b.
Qed.

End ClassifierFacts.

(** ** Facts about the file operations *)

Module FileFacts.
Import Py OS Spec PyFacts.

Lemma write_read (fs0 fs1 : filesystem) p content :
  write_file fs0 p content = inr fs1 -> read_file fs1 p = inr content.
Proof.
  unfold write_file, create_at, read_file.
  destruct (fs0 !! p) as [[]|]; try done.
  - intros [= <-]. by rewrite lookup_insert_eq.
  - destruct (fs0 !! parent p) as [[]|]; try done.
    intros [= <-]. by rewrite lookup_insert_eq.
Qed.

Lemma makedirs_go_keeps (fs0 fs1 : filesystem) d t q :
  makedirs_go fs0 d t = inr fs1 -> fs0 !! q = Some Dir -> fs1 !! q = Some Dir.
Proof.
  revert fs0 d. induction t as [|c rest IH]; intros fs0 d; simpl.
  { by intros [= <-]. }
  destruct (fs0 !! (d ++ [c])) as [[]|] eqn:Hq; [done|apply IH|].
  intros H Hd. eapply IH; [exact H|].
  rewrite lookup_insert_ne; [done|]. intros <-. by rewrite Hq in Hd.
Qed.





End FileFacts.

Module WebFileFacts.
Import Py OS Spec PyFacts FileFacts WebTerminal.

Lemma index_of_app x (words rest : list string) :
  x ∉ words -> index_of x (words ++ x :: rest) = Some (length words).
Proof.
  induction words as [|w words IH]; simpl; intros Hx.
  - by rewrite String.eqb_refl.
  - apply not_elem_of_cons in Hx as [Hne Hx].
    apply not_eq_sym, String.eqb_neq in Hne. rewrite Hne, (IH Hx). reflexivity.
Qed.



End WebFileFacts.

Module CliFileFacts.
Import Py OS Spec PyFacts FileFacts PythonTerminal.




End CliFileFacts.

(** ** The history of the command-line terminal *)

Import Py OS Spec PyFacts FileFacts WebFileFacts CliFileFacts.

Section CliSession.
Import PythonTerminal.
Variable home : string.
Variable chdir_denied : path -> bool.
Variable shlex_split : string -> option (list string).
Variable external : string -> world -> world.

Lemma record_history_last_n (h : list string) line :
    length h <= 100 -> record_history h line = last_n 100 (h ++ [line]).
Proof.
    intros Hh. unfold record_history, last_n. rewrite length_app. simpl.
    case_bool_decide as Hlen.
    - replace (length h + 1 - 100) with 1 by lia. reflexivity.
    - replace (length h + 1 - 100) with 0 by lia. reflexivity.
Qed.

Lemma last_n_length {A} n (l : list A) : length (last_n n l) <= n.
Proof. unfold last_n. rewrite length_drop. lia. Qed.

Lemma last_n_snoc {A} n (l : list A) x :
    last_n (S n) (last_n (S n) l ++ [x]) = last_n (S n) (l ++ [x]).
Proof.
    unfold last_n. rewrite !length_app, length_drop. simpl.
    destruct (decide (length l <= S n)) as [Hle|Hgt].
    - replace (length l - S n) with 0 by lia. simpl. by rewrite Nat.sub_0_r.
    - replace (length l - (length l - S n) + 1 - S n) with 1 by lia.
      replace (length l + 1 - S n) with ((length l - S n) + 1) by lia.
      rewrite <- drop_drop. by rewrite (drop_app_le l [x]) by lia.
Qed.

Lemma cmd_cd_history s w p :
    command_history (cmd_cd home chdir_denied s w p).1.1 = command_history s.
Proof. unfold cmd_cd. repeat case_match; reflexivity. Qed.

Lemma dispatch_history s w line command args :
    command_history (dispatch home chdir_denied external s w line command args).1.1
    = command_history s.
Proof.
    unfold dispatch.
    pose proof (cmd_cd_history s w (hd home args)) as Hcd.
    destruct (cmd_cd home chdir_denied s w (hd home args)) as [[s1 w1] m].
    repeat case_match; simpl in *; try done.
Qed.

Lemma execute_command_history s w line :
    command_history (execute_command home chdir_denied shlex_split external s w line).1.1
    = if is_empty (strip line) then command_history s
      else record_history (command_history s) line.
Proof.
    unfold execute_command. destruct (is_empty (strip line)); [reflexivity|].
    destruct (shlex_split line) as [[|a0 args]|]; try reflexivity.
    by rewrite dispatch_history.
Qed.

Lemma run_session_bound s w lines :
    length (command_history s) <= 100 ->
    length (command_history
              (run_session home chdir_denied shlex_split external s w lines).1)
    <= 100.
Proof.
    revert s w. induction lines as [|l rest IH]; intros s w Hs; [done|].
    simpl. pose proof (execute_command_history s w l) as Hh.
    destruct (execute_command _ _ _ _ s w l) as [[s1 w1] ms]. simpl in Hh.
    apply IH. rewrite Hh. destruct (is_empty (strip l)); [done|].
    rewrite record_history_last_n by done. apply last_n_length.
Qed.

Lemma run_session_history s w lines :
    length (command_history s) <= 100 -> Forall not_blank lines ->
    command_history
      (run_session home chdir_denied shlex_split external s w lines).1
    = last_n 100 (command_history s ++ lines).
Proof.
    revert s w. induction lines as [|l rest IH]; intros s w Hs Hall.
    { simpl. rewrite app_nil_r. unfold last_n.
      replace (length (command_history s) - 100) with 0 by lia. reflexivity. }
    apply Forall_cons in Hall as [Hl Hall].
    simpl. pose proof (execute_command_history s w l) as Hh.
    destruct (execute_command _ _ _ _ s w l) as [[s1 w1] ms]. simpl in Hh.
    unfold not_blank in Hl. rewrite Hl in Hh.
    rewrite record_history_last_n in Hh by done.
    rewrite IH; [|rewrite Hh; apply last_n_length|done].
    rewrite Hh. clear. revert l. induction rest as [|x rest IHr] using rev_ind; intros l.
    - rewrite app_nil_r. unfold last_n at 1.
      replace (length _ - 100) with 0; [done|].
      pose proof (last_n_length 100 (command_history s ++ [l])). lia.
    - rewrite !app_assoc.
      rewrite <- (last_n_snoc 99 (last_n 100 _ ++ rest)).
      rewrite IHr. rewrite last_n_snoc. by rewrite <- !app_assoc.
Qed.

End CliSession.

(** ** The directory change *)

(** C1. [cmd_cd] to a path that does not exist or is not a directory
    leaves the session (current and previous directory) and the process
    unchanged and reports that there is no such directory; and whenever
    [cmd_cd] changes the session, the resolved path exists and is a
    directory, it is the new current directory, and the old one is the
    recorded previous directory. *)
Theorem cd_commits_only_a_confirmed_directory
    (home : string) (chdir_denied : path -> bool)
    (s : PythonTerminal.session) (w : PythonTerminal.world) (target : string) :
  let p := PythonTerminal.cd_target home s w target in
  (exists_ (PythonTerminal.fs w) p = false \/ isdir (PythonTerminal.fs w) p = false ->
   PythonTerminal.cmd_cd home chdir_denied s w target
   = (s, w, PythonTerminal.CdNoSuchFileOrDirectory p)) /\
  ((PythonTerminal.cmd_cd home chdir_denied s w target).1.1 <> s ->
   exists_ (PythonTerminal.fs w) p = true /\ isdir (PythonTerminal.fs w) p = true /\
   PythonTerminal.current_directory
     (PythonTerminal.cmd_cd home chdir_denied s w target).1.1 = p /\
   PythonTerminal.prev_directory
     (PythonTerminal.cmd_cd home chdir_denied s w target).1.1
   = Some (PythonTerminal.current_directory s)).
Proof.
  intros p. unfold PythonTerminal.cmd_cd. fold p.
  destruct (exists_ (PythonTerminal.fs w) p) eqn:He;
    destruct (isdir (PythonTerminal.fs w) p) eqn:Hd; simpl.
  - split; [intros [?|?]; discriminate|]. intros _.
    by destruct (chdir_denied p).
  - split; [done|]. intros H. by destruct H.
  - split; [done|]. intros H. by destruct H.
  - split; [done|]. intros H. by destruct H.
Qed.

Lemma cd_commits_only_a_confirmed_directory_witness :
  PythonTerminal.cmd_cd "/home" Examples.never_denied Examples.cli_session
    (Examples.cli_world Examples.busy_tree) "nowhere"
  = (Examples.cli_session, Examples.cli_world Examples.busy_tree,
     PythonTerminal.CdNoSuchFileOrDirectory ["w"; "nowhere"]) /\
  PythonTerminal.current_directory
    (PythonTerminal.cmd_cd "/home" Examples.never_denied Examples.cli_session
       (Examples.cli_world Examples.busy_tree) "d").1.1 = ["w"; "d"].
Proof.
  pose proof (cd_commits_only_a_confirmed_directory "/home" Examples.never_denied
                Examples.cli_session (Examples.cli_world Examples.busy_tree)
                "nowhere") as [Hfail _].
  pose proof (cd_commits_only_a_confirmed_directory "/home" Examples.never_denied
                Examples.cli_session (Examples.cli_world Examples.busy_tree)
                "d") as [_ Hok].
  split.
  - apply Hfail. left. vm_compute. reflexivity.
  - apply Hok. vm_compute. discriminate.
Defined.

(** C3. The deterministic resolver maps the six literal lines as listed. *)
Theorem fallback_literal_cases :
  Fallback.parse_with_fallback_patterns "delete old.txt" = Some "rm old.txt" /\
  Fallback.parse_with_fallback_patterns "how many files are here" = Some "count" /\
  Fallback.parse_with_fallback_patterns "create a file called test.py"
  = Some "touch test.py" /\
  Fallback.parse_with_fallback_patterns "make a folder named project"
  = Some "mkdir project" /\
  Fallback.parse_with_fallback_patterns "write hello world to greeting.txt"
  = Some "echo hello world > greeting.txt" /\
  WebTerminal.lookup_builtin (split "echo hello world > greeting.txt")
  = Some (WebTerminal.Echo ["hello"; "world"; ">"; "greeting.txt"]) /\
  Fallback.parse_with_fallback_patterns "show me the files" = Some "ls".
Proof. repeat split; vm_compute; reflexivity. Qed.

(** ** The bound of the history *)

(** C5 (as amended). In the command-line terminal the history never
    exceeds 100 entries and the oldest entry goes first: whatever lines are
    run, the history keeps at most 100 entries; and after 101 lines that
    are not blank the history is the second to the 101st line in order, so
    the 101st is its last entry and the first line is gone (unless the same
    text was typed again later). *)
Theorem cli_history_is_bounded_and_fifo
    (home : string) (chdir_denied : path -> bool)
    (shlex_split : string -> option (list string))
    (external : string -> PythonTerminal.world -> PythonTerminal.world)
    (s : PythonTerminal.session) (w : PythonTerminal.world) :
  length (PythonTerminal.command_history s) <= 100 ->
  (forall lines,
     length (PythonTerminal.command_history
               (PythonTerminal.run_session home chdir_denied shlex_split
                  external s w lines).1) <= 100) /\
  (forall cmds,
     length cmds = 101 -> Forall not_blank cmds ->
     let history :=
       PythonTerminal.command_history
         (PythonTerminal.run_session home chdir_denied shlex_split
            external s w cmds).1 in
     history = drop 1 cmds /\ length history = 100 /\
     last history = last cmds /\
     (forall c, head cmds = Some c -> c ∉ drop 1 cmds -> c ∉ history)).
Proof.
  intros Hs. split.
  - intros lines. by apply run_session_bound.
  - intros cmds Hlen Hall history.
    assert (Hh : history = drop 1 cmds).
    { unfold history. rewrite run_session_history by done.
      unfold last_n. rewrite length_app, Hlen.
      replace (length (PythonTerminal.command_history s) + 101 - 100)
        with (length (PythonTerminal.command_history s) + 1) by lia.
      rewrite <- drop_drop. by rewrite drop_app_length. }
    rewrite Hh. repeat split.
    + rewrite length_drop. lia.
    + destruct cmds as [|c0 [|c1 rest]]; simpl in *; try lia. reflexivity.
    + intros c _ Hc. exact Hc.
Qed.

Lemma cli_history_is_bounded_and_fifo_witness :
  PythonTerminal.command_history
    (PythonTerminal.run_session "/home" Examples.never_denied
       Examples.plain_split Examples.idle Examples.cli_session
       (Examples.cli_world Examples.empty_tree) Examples.hundred_and_one).1
  = replicate 100 "pwd".
Proof.
  assert (H0 : length (PythonTerminal.command_history Examples.cli_session) <= 100)
    by (simpl; lia).
  destruct (cli_history_is_bounded_and_fifo "/home" Examples.never_denied
              Examples.plain_split Examples.idle Examples.cli_session
              (Examples.cli_world Examples.empty_tree) H0) as [_ H].
  destruct (H Examples.hundred_and_one) as [Hh _].
  - reflexivity.
  - unfold Examples.hundred_and_one. apply Forall_cons. split; [reflexivity|].
    apply Forall_replicate. reflexivity.
  - exact Hh.
Defined.

(** C5, as stated, fails on the web terminal: its history has no bound.
    After 101 lines it holds 101 entries and the first line is still
    there. *)
Lemma web_history_is_unbounded :
  exists st,
    WebTerminal.run_session Examples.rejecting Examples.quiet_shell 0
      (Examples.fresh false Examples.empty_tree) Examples.hundred_and_one
    = Some st /\
    length (WebTerminal.command_history st) = 101 /\
    head (WebTerminal.command_history st) = Some "help".
Proof. eexists. split; [vm_compute; reflexivity|]. split; reflexivity. Qed.

(** ** File operations of the terminals *)

(** C7. Round trip of the redirect-write and the read: when [echo] with
    the words, the redirect sign and a target reports the content as
    written, [cat] of the same target yields the words joined by single
    spaces, exactly. *)
Theorem echo_redirect_then_cat_round_trip
    (cwd : path) (fs0 fs1 : filesystem) (words : list string) (target : string) :
  words <> [] -> ">" ∉ words ->
  WebTerminal.cmd_echo cwd fs0 (words ++ [">"; target])
  = (fs1, WebTerminal.ContentWritten target) ->
  WebTerminal.cmd_cat cwd fs1 [target]
  = (fs1, [WebTerminal.FileContents target (join " " words)]).
Proof.
  intros Hne Hgt. unfold WebTerminal.cmd_echo.
  assert (Hlen : ~ length (words ++ [">"; target]) < 3).
  { rewrite length_app. destruct words; [done|]. simpl. lia. }
  rewrite (bool_decide_eq_false_2 _ Hlen).
  assert (Hmem : mem ">" (words ++ [">"; target]) = true).
  { apply bool_decide_eq_true. set_solver. }
  rewrite Hmem. simpl.
  rewrite (WebFileFacts.index_of_app ">" words [target] Hgt).
  rewrite take_app_length.
  rewrite lookup_app_r by lia.
  replace (S (length words) - length words) with 1 by lia. simpl.
  destruct (write_file fs0 (resolve cwd target) (join " " words)) as [e|fs2] eqn:Hw;
    [done|].
  intros [= <-]. unfold WebTerminal.cmd_cat, WebTerminal.cat_one. simpl.
  by rewrite (write_read _ _ _ _ Hw).
Qed.

Lemma echo_redirect_then_cat_round_trip_witness :
  WebTerminal.cmd_cat Examples.work_dir
    (WebTerminal.cmd_echo Examples.work_dir Examples.empty_tree
       ["hello"; "world"; ">"; "greeting.txt"]).1 ["greeting.txt"]
  = ((WebTerminal.cmd_echo Examples.work_dir Examples.empty_tree
       ["hello"; "world"; ">"; "greeting.txt"]).1,
     [WebTerminal.FileContents "greeting.txt" "hello world"]).
Proof.
  apply (echo_redirect_then_cat_round_trip Examples.work_dir Examples.empty_tree
           _ ["hello"; "world"] "greeting.txt").
  - discriminate.
  - rewrite !elem_of_cons, elem_of_nil. intros [H|[H|[]]]; discriminate.
  - vm_compute. reflexivity.
Defined.

(** The same through the dispatcher, from the sentence to the file. *)
Example write_sentence_then_cat :
  exists st1 st2,
    WebTerminal.execute_command Examples.rejecting Examples.quiet_shell 1
      (Examples.fresh false Examples.empty_tree)
      "write hello world to greeting.txt"
    = Some (st1, WebTerminal.ContentWritten "greeting.txt") /\
    WebTerminal.execute_command Examples.rejecting Examples.quiet_shell 0
      st1 "cat greeting.txt"
    = Some (st2, WebTerminal.Report
                   [WebTerminal.FileContents "greeting.txt" "hello world"]).
Proof. do 2 eexists. split; vm_compute; reflexivity. Qed.







(** ** Resolution and dispatch in the web terminal *)

Import Fallback FallbackFacts WebTerminal WebFacts WebFacts2 ClassifierFacts.

Section Fuel.
Variable gemini : nat -> string -> api_reply.
Variable shell : string -> path -> filesystem -> shell_outcome.

(** A line that is not natural language runs the same with any fuel. *)
Lemma execute_not_natural_fuel fuel st line :
    classify line <> NaturalLanguage ->
    execute_command gemini shell fuel st line
    = execute_command gemini shell 0 st line.
Proof.
    intros Hc. destruct fuel; [reflexivity|]. simpl.
    destruct (is_empty (strip line)); [reflexivity|].
    by destruct (classify line).
Qed.

End Fuel.

(** C2 (as amended). A line classified as natural language and resolved by
    the deterministic strategy: the resolved command is not classified as
    natural language, the run ends with one nested call whatever the fuel
    beyond it, and the history shows the line and the resolved command,
    each once. *)
Theorem deterministic_resolution_runs_once
    (gemini : nat -> string -> api_reply)
    (shell : string -> path -> filesystem -> shell_outcome)
    (st : state) (line r : string) :
  ai_enabled st = false ->
  classify line = NaturalLanguage ->
  parse_with_fallback_patterns line = Some r ->
  classify r <> NaturalLanguage /\
  exists st' res,
    (forall fuel,
       execute_command gemini shell (S fuel) st line = Some (st', res)) /\
    command_history st' = command_history st ++ [line; r].
Proof.
  intros Hai Hcl Hr.
  pose proof (fallback_canonical line r Hr) as Hcan.
  pose proof (classify_canonical_not_natural r Hcan) as Hnot.
  split; [exact Hnot|].
  destruct (execute_not_natural gemini shell 0
              (say (log_command st line) (Interpreting r)) r)
    as (st' & res & He & _ & Hh);
    [by apply canonical_not_blank|exact Hnot|].
  exists st', res. split.
  - intros fuel. cbn [execute_command].
    rewrite (classify_natural_not_blank line Hcl), Hcl.
    rewrite parse_deterministic by done. rewrite Hr.
    assert (Ht : truthy (Some r) = true).
    { simpl. apply negb_true_iff, is_empty_false. intros ->.
      by destruct (canonical_head "" Hcan) as (c & Hc & _). }
    rewrite Ht. cbn [default].
    by rewrite execute_not_natural_fuel.
  - rewrite Hh. simpl. by rewrite <- app_assoc.
Qed.

Lemma deterministic_resolution_runs_once_witness :
  classify "ls" <> NaturalLanguage /\
  exists st' res,
    (forall fuel,
       execute_command Examples.rejecting Examples.quiet_shell (S fuel)
         (Examples.fresh false Examples.empty_tree) "show me the files"
       = Some (st', res)) /\
    command_history st' = ["show me the files"; "ls"].
Proof.
  apply (deterministic_resolution_runs_once Examples.rejecting
           Examples.quiet_shell (Examples.fresh false Examples.empty_tree)
           "show me the files" "ls"); vm_compute; reflexivity.
Defined.

Lemma parrot_never_returns fuel st :
  ai_enabled st = true -> api_ready st = true ->
  execute_command Examples.parrot Examples.quiet_shell fuel st "please" = None.
Proof.
  revert st. induction fuel as [|fuel IH]; intros st Hai Hready.
  - cbn [execute_command].
    change (is_empty (strip "please")) with false.
    change (classify "please") with NaturalLanguage. cbv iota.
    unfold parse_natural_language. cbn [ai_enabled log_command]. rewrite Hai.
    unfold parse_with_gemini, call_gemini_api.
    cbn [api_ready log_command]. rewrite Hready. reflexivity.
  - cbn [execute_command].
    change (is_empty (strip "please")) with false.
    change (classify "please") with NaturalLanguage. cbv iota.
    unfold parse_natural_language. cbn [ai_enabled log_command]. rewrite Hai.
    unfold parse_with_gemini, call_gemini_api.
    cbn [api_ready log_command]. rewrite Hready.
    cbn -[execute_command]. apply IH; reflexivity || assumption.
Qed.

(** C2, as stated, fails with the remote strategy: the command it resolves
    a line to is put through the whole of [execute_command], where it is
    classified and resolved again; when the service keeps answering with a
    sentence no amount of fuel ends the run. *)
Lemma remote_resolution_is_classified_again :
  classify "list everything" = NaturalLanguage /\
  (exists st',
     execute_command Examples.chatty Examples.quiet_shell 2
       (Examples.fresh true Examples.empty_tree) "show me the files"
     = Some (st', DirectoryEmpty) /\
     command_history st' = ["show me the files"; "list everything"; "ls"]) /\
  (forall fuel,
     execute_command Examples.parrot Examples.quiet_shell fuel
       (Examples.fresh true Examples.empty_tree) "please" = None).
Proof.
  split; [vm_compute; reflexivity|]. split.
  - eexists. split; vm_compute; reflexivity.
  - intros fuel. by apply parrot_never_returns.
Qed.

(** C4 (as amended). A line whose first word is, in that exact case, one
    of the names the web terminal compares against is never classified as
    natural language, whatever follows, and runs as that built-in as soon
    as it has an operand; a line whose first word is none of these names is
    classified as natural language exactly when its lowercased text holds
    one of the indicator phrases, or it has more than two words and one of
    them is a common function word. *)
Theorem exact_builtin_name_is_never_natural_language (line : string) :
  (forall c rest,
     split line = c :: rest -> c ∈ builtin_names ->
     classify line <> NaturalLanguage /\
     (rest <> [] -> exists b, classify line = Builtin b)) /\
  ((forall c, head (split line) = Some c -> c ∉ builtin_names) ->
   (classify line = NaturalLanguage <-> is_natural_language line)).
Proof.
  split.
  - intros c rest. apply builtin_not_natural.
  - intros Hhead.
    assert (Hnone : lookup_builtin (split line) = None).
    { destruct (lookup_builtin (split line)) as [b|] eqn:Hb; [|done].
      apply lookup_builtin_names in Hb.
      destruct (split line) as [|c rest]; simpl in Hb.
      - unfold builtin_names in Hb. rewrite !elem_of_cons, elem_of_nil in Hb.
        repeat (destruct Hb as [Hb|Hb]; [discriminate|]). done.
      - by destruct (Hhead c eq_refl). }
    unfold classify. rewrite Hnone.
    rewrite <- looks_like_natural_language_spec.
    destruct (looks_like_natural_language line); split; done.
Qed.

Lemma exact_builtin_name_is_never_natural_language_witness :
  (classify "ls please show me" <> NaturalLanguage /\
   (["please"; "show"; "me"] <> [] ->
    exists b, classify "ls please show me" = Builtin b)) /\
  (classify "frobnicate the widget now" = NaturalLanguage <->
   is_natural_language "frobnicate the widget now").
Proof.
  pose proof (exact_builtin_name_is_never_natural_language "ls please show me")
    as [Hbuiltin _].
  pose proof (exact_builtin_name_is_never_natural_language
                "frobnicate the widget now") as [_ Hother].
  split.
  - apply (Hbuiltin "ls" ["please"; "show"; "me"]); [reflexivity|].
    unfold builtin_names. rewrite !elem_of_cons. tauto.
  - apply Hother. intros c Hc. vm_compute in Hc. injection Hc as <-.
    unfold builtin_names. rewrite !elem_of_cons, elem_of_nil.
    intros H. repeat (destruct H as [H|H]; [discriminate|]). exact H.
Defined.

(** C4, as stated, fails for a built-in name in another case: the web
    terminal compares the first word as typed, so the line goes to the
    resolver. *)
Lemma uppercase_builtin_is_natural_language :
  head (split "LS please show me") = Some "LS" /\
  lower "LS" = "ls" /\
  classify "ls please show me" = Builtin Ls /\
  classify "LS please show me" = NaturalLanguage.
Proof. repeat split; vm_compute; reflexivity. Qed.




(** C10. What the deterministic resolver does on a deletion whose target
    is a pair of quotes: the command it returns has a name and no target,
    and the chain of comparisons does not take it as a built-in. *)
Theorem deletion_of_quotes_has_no_target :
  parse_with_fallback_patterns "delete the file ''" = Some "rm " /\
  split "rm " = ["rm"] /\
  lookup_builtin (split "rm ") = None /\
  parse_with_fallback_patterns "remove the folder named ''" = Some "rmdir " /\
  lookup_builtin (split "rmdir ") = None /\
  parse_with_fallback_patterns "create a file named ''" = Some "touch newfile.txt".
Proof. repeat split; vm_compute; reflexivity. Qed.

(** What does hold of every line: the resolver returns nothing or a
    canonical command, whose first word is one of the seven names. *)
Lemma fallback_first_word (line r : string) :
  parse_with_fallback_patterns line = Some r ->
  r <> "" /\ exists c, head (split r) = Some c /\ c ∈ resolver_names.
Proof.
  intros H. pose proof (fallback_canonical line r H) as Hcan.
  split; [|by apply canonical_head].
  intros ->. by destruct (canonical_head "" Hcan) as (c & Hc & _).
Qed.


(** * Further properties *)

Import More.

(** ** Further properties of the file commands of the web terminal *)




(** X2. Round trip of [edit] and [cat]: when [edit] reports the file as
    edited, [cat] of the same name yields the words after the name joined
    by single spaces, whatever the file held before. *)
Theorem edit_then_cat_round_trip
    (cwd : path) (fs0 fs1 : filesystem) (filename : string)
    (words : list string) :
  WebTerminal.cmd_edit cwd fs0 (filename :: words)
  = (fs1, WebTerminal.FileEdited filename) ->
  WebTerminal.cmd_cat cwd fs1 [filename]
  = (fs1, [WebTerminal.FileContents filename (join " " words)]).
Proof.
  unfold WebTerminal.cmd_edit.
  destruct (write_file fs0 (resolve cwd filename) (join " " words))
    as [e|fs2] eqn:Hw; [done|].
  intros [= <-]. unfold WebTerminal.cmd_cat, WebTerminal.cat_one. simpl.
  by rewrite (write_read _ _ _ _ Hw).
Qed.

Lemma edit_then_cat_round_trip_witness :
  WebTerminal.cmd_cat Examples.work_dir
    (WebTerminal.cmd_edit Examples.work_dir Examples.busy_tree
       ["x"; "new"; "text"]).1 ["x"]
  = ((WebTerminal.cmd_edit Examples.work_dir Examples.busy_tree
        ["x"; "new"; "text"]).1,
     [WebTerminal.FileContents "x" "new text"]).
Proof.
  apply (edit_then_cat_round_trip Examples.work_dir Examples.busy_tree _
           "x" ["new"; "text"]).
  vm_compute. reflexivity.
Defined.

Lemma rmtree_lookup (fs0 : filesystem) (p q : path) :
  rmtree fs0 p !! q = if decide (p `prefix_of` q) then None else fs0 !! q.
Proof.
  unfold rmtree. destruct (decide (p `prefix_of` q)) as [Hp|Hp].
  - apply map_lookup_filter_None. right. intros n _ Hn. by apply Hn.
  - destruct (fs0 !! q) as [n|] eqn:Hq.
    + apply map_lookup_filter_Some. split; [done|]. exact Hp.
    + apply map_lookup_filter_None. by left.
Qed.





Lemma parent_snoc (d : path) c : parent (d ++ [c]) = d.
Proof. apply removelast_last. Qed.




Lemma child_name_some (d k : path) n :
  child_name d k = Some n -> k = d ++ [n].
Proof.
  unfold child_name. destruct (last k) as [m|]; [|done].
  case_bool_decide; [|done]. by intros [= <-].
Qed.




Lemma for_each_targets
    (f : filesystem -> string -> filesystem * WebTerminal.target_line)
    (fs0 : filesystem) (args : list string) :
  (forall tree a, line_target (f tree a).2 = a) ->
  line_target <$> (WebTerminal.for_each f fs0 args).2 = args.
Proof.
  intros Hf. revert fs0. induction args as [|a rest IH]; intros fs0; [done|].
  simpl. pose proof (Hf fs0 a) as Ha.
  destruct (f fs0 a) as [fs1 l]. specialize (IH fs1).
  destruct (WebTerminal.for_each f fs1 rest) as [fs2 ls].
  change (line_target l :: (line_target <$> ls) = a :: rest).
  simpl in Ha, IH. by rewrite Ha, IH.
Qed.

(** X6. Every multi-target command of the web terminal reports one line
    per target, in the order of the targets and each about its own target,
    whichever of them fail; and [cat] leaves the file tree as it is. *)
Theorem one_report_line_per_target
    (cwd : path) (fs0 : filesystem) (args : list string) :
  line_target <$> (WebTerminal.cmd_mkdir cwd fs0 args).2 = args /\
  line_target <$> (WebTerminal.cmd_touch cwd fs0 args).2 = args /\
  line_target <$> (WebTerminal.cmd_cat cwd fs0 args).2 = args /\
  line_target <$> (WebTerminal.cmd_rm cwd fs0 args).2 = args /\
  line_target <$> (WebTerminal.cmd_rmdir cwd fs0 args).2 = args /\
  line_target <$> (WebTerminal.cmd_rmdir_force cwd fs0 args).2 = args /\
  (WebTerminal.cmd_cat cwd fs0 args).1 = fs0.
Proof.
  repeat split.
  - apply for_each_targets. intros tree a. unfold WebTerminal.mkdir_one.
    by destruct (makedirs _ _).
  - apply for_each_targets. intros tree a. unfold WebTerminal.touch_one.
    by destruct (touch_file _ _).
  - apply for_each_targets. intros tree a. unfold WebTerminal.cat_one.
    by destruct (read_file _ _) as [[]|].
  - apply for_each_targets. intros tree a. unfold WebTerminal.rm_one.
    repeat case_match; done.
  - apply for_each_targets. intros tree a. unfold WebTerminal.rmdir_one.
    repeat case_match; done.
  - apply for_each_targets. intros tree a. unfold WebTerminal.rmdir_force_one.
    by case_match.
  - unfold WebTerminal.cmd_cat. induction args as [|a rest IH]; [done|].
    simpl. unfold WebTerminal.cat_one at 1.
    destruct (read_file fs0 (resolve cwd a)) as [[]|];
      by destruct (WebTerminal.for_each (WebTerminal.cat_one cwd) fs0 rest).
Qed.

Lemma filter_exclusive_length {A} (P Q : A -> bool) (l : list A) :
  (forall x, P x = true -> Q x = false) ->
  length (filter P l) + length (filter Q l) <= length l.
Proof.
  intros Hex. induction l as [|x l IH]; [done|].
  rewrite !filter_cons. specialize (Hex x).
  destruct (P x) eqn:HP, (Q x) eqn:HQ; simpl;
    repeat case_decide; simpl; try lia; try done.
Qed.

(** X7. In the figures of [count] the files and the directories never add
    up to more than the total, and the total is the number of entries of
    the working directory. *)
Theorem count_parts_within_total
    (cwd : path) (fs0 : filesystem) (files dirs total : nat) :
  WebTerminal.cmd_count cwd fs0 = WebTerminal.FileCount files dirs total ->
  files + dirs <= total /\ total = length (children fs0 cwd).
Proof.
  unfold WebTerminal.cmd_count, listdir.
  destruct (fs0 !! cwd) as [[]|]; try done.
  intros [= <- <- <-]. split; [|reflexivity].
  apply filter_exclusive_length. intros x. unfold isfile, isdir.
  by destruct (fs0 !! resolve cwd x) as [[]|].
Qed.

Lemma count_parts_within_total_witness :
  1 + 1 <= 2 /\ 2 = length (children Examples.busy_tree Examples.work_dir).
Proof.
  apply (count_parts_within_total Examples.work_dir Examples.busy_tree 1 1 2).
  vm_compute. reflexivity.
Defined.

Lemma makedirs_go_dirs (fs0 fs1 : filesystem) (d : path) (t : list string) k :
  makedirs_go fs0 d t = inr fs1 -> 0 < k <= length t ->
  isdir fs1 (d ++ take k t) = true.
Proof.
  revert fs0 d k. induction t as [|c rest IH]; intros fs0 d k H Hk;
    [simpl in Hk; lia|].
  simpl in H.
  assert (Hstep : forall tree,
            tree !! (d ++ [c]) = Some Dir ->
            makedirs_go tree (d ++ [c]) rest = inr fs1 ->
            isdir fs1 (d ++ take k (c :: rest)) = true).
  { intros tree Hl Hgo. destruct k as [|[|k]]; [lia| |].
    - change (take 1 (c :: rest)) with [c]. unfold isdir.
      by rewrite (makedirs_go_keeps _ _ _ _ _ Hgo Hl).
    - simpl. rewrite (cons_middle c), app_assoc.
      apply (IH tree); [done|]. simpl in Hk. lia. }
  destruct (fs0 !! (d ++ [c])) as [[]|] eqn:Hl; [done| |].
  - by apply (Hstep fs0).
  - apply (Hstep (<[d ++ [c] := Dir]> fs0)); [|done].
    apply lookup_insert_eq.
Qed.

Lemma makedirs_go_keeps_all (fs0 fs1 : filesystem) d t q n :
  makedirs_go fs0 d t = inr fs1 -> fs0 !! q = Some n -> fs1 !! q = Some n.
Proof.
  revert fs0 d. induction t as [|c rest IH]; intros fs0 d; simpl.
  { by intros [= <-]. }
  destruct (fs0 !! (d ++ [c])) as [[]|] eqn:Hl; [done|apply IH|].
  intros H Hq. eapply IH; [exact H|].
  rewrite lookup_insert_ne; [done|]. intros <-. by rewrite Hl in Hq.
Qed.

(** X8. When [mkdir] reports a directory as created, the directory and
    every directory on the path to it exist afterwards, and nothing that
    was there before has changed. *)
Theorem mkdir_creates_the_whole_path
    (cwd : path) (fs0 fs1 : filesystem) (name : string) :
  WebTerminal.cmd_mkdir cwd fs0 [name]
  = (fs1, [WebTerminal.DirectoryCreated name]) ->
  (forall q, q `prefix_of` resolve cwd name -> q <> [] -> isdir fs1 q = true) /\
  (forall q n, fs0 !! q = Some n -> fs1 !! q = Some n).
Proof.
  unfold WebTerminal.cmd_mkdir. simpl. unfold WebTerminal.mkdir_one.
  destruct (makedirs fs0 (resolve cwd name)) as [e|fs2] eqn:Hm; [done|].
  intros [= <-]. split.
  - intros q [rest Hq] Hne.
    replace q with ([] ++ take (length q) (resolve cwd name)).
    + apply (makedirs_go_dirs fs0 fs2 [] _ _ Hm).
      rewrite Hq, length_app. destruct q; [done|]. simpl. lia.
    + simpl. rewrite Hq. by rewrite take_app_length.
  - intros q n. exact (makedirs_go_keeps_all fs0 fs2 [] (resolve cwd name) q n Hm).
Qed.

Lemma mkdir_creates_the_whole_path_witness :
  isdir (WebTerminal.cmd_mkdir Examples.work_dir Examples.busy_tree
           ["a/b/c"]).1 ["w"; "a"; "b"] = true.
Proof.
  destruct (mkdir_creates_the_whole_path Examples.work_dir Examples.busy_tree
              (WebTerminal.cmd_mkdir Examples.work_dir Examples.busy_tree
                 ["a/b/c"]).1 "a/b/c") as [H _].
  - vm_compute. reflexivity.
  - apply H; [|done]. exists ["c"]. reflexivity.
Defined.

Lemma normalise_grows (base acc : path) (cs : list string) :
  ".." ∉ cs -> base `prefix_of` acc ->
  base `prefix_of` foldl normalise_step acc cs.
Proof.
  revert acc. induction cs as [|c cs IH]; intros acc Hcs Hacc; [done|].
  apply not_elem_of_cons in Hcs as [Hc Hcs]. simpl. apply IH; [done|].
  unfold normalise_step.
  destruct (is_empty c || String.eqb c "."); [done|].
  destruct (String.eqb c "..") eqn:E; [by apply String.eqb_eq in E|].
  by apply prefix_app_r.
Qed.

Lemma plain_name_below (cwd : path) (name : string) :
  plain_name name -> cwd `prefix_of` resolve cwd name.
Proof.
  intros [Habs Hdots]. unfold resolve. rewrite Habs.
  by apply normalise_grows.
Qed.

Lemma removal_outside (cwd : path)
    (f : filesystem -> string -> filesystem * WebTerminal.target_line)
    (fs0 : filesystem) (args : list string) (q : path) :
  (forall tree a, plain_name a -> ~ cwd `prefix_of` q ->
                  (f tree a).1 !! q = tree !! q) ->
  Forall plain_name args -> ~ cwd `prefix_of` q ->
  (WebTerminal.for_each f fs0 args).1 !! q = fs0 !! q.
Proof.
  intros Hf Hall Hq. revert fs0.
  induction Hall as [|a rest Ha Hall IH]; intros fs0; [done|].
  simpl. pose proof (Hf fs0 a Ha Hq) as H1.
  destruct (f fs0 a) as [fs1 l]. specialize (IH fs1).
  destruct (WebTerminal.for_each f fs1 rest) as [fs2 ls].
  simpl in *. by rewrite IH.
Qed.

(** X9. The removing commands of the web terminal, given names that are
    not absolute and have no dot-dot component, touch nothing outside the
    working directory: every entry that does not lie below it is the same
    after [rm], [rmdir] and [rmdir -r]. *)
Theorem removal_stays_below_the_working_directory
    (cwd : path) (fs0 : filesystem) (args : list string) (q : path) :
  Forall plain_name args -> ~ cwd `prefix_of` q ->
  (WebTerminal.cmd_rm cwd fs0 args).1 !! q = fs0 !! q /\
  (WebTerminal.cmd_rmdir cwd fs0 args).1 !! q = fs0 !! q /\
  (WebTerminal.cmd_rmdir_force cwd fs0 args).1 !! q = fs0 !! q.
Proof.
  intros Hall Hq.
  assert (Hne : forall a, plain_name a -> resolve cwd a <> q).
  { intros a Ha <-. by apply Hq, plain_name_below. }
  repeat split.
  - apply (removal_outside cwd); try done. intros tree a Ha _.
    unfold WebTerminal.rm_one, remove.
    destruct (isfile tree (resolve cwd a)).
    + destruct (tree !! resolve cwd a) as [[]|]; simpl; try done.
      by rewrite lookup_delete_ne by by apply Hne.
    + by destruct (isdir tree (resolve cwd a)).
  - apply (removal_outside cwd); try done. intros tree a Ha _.
    unfold WebTerminal.rmdir_one, listdir, rmdir.
    destruct (isdir tree (resolve cwd a)); [|done].
    destruct (tree !! resolve cwd a) as [[]|]; simpl; try done.
    destruct (children tree (resolve cwd a)); simpl; [|done].
    by rewrite lookup_delete_ne by by apply Hne.
  - apply (removal_outside cwd); try done. intros tree a Ha _.
    unfold WebTerminal.rmdir_force_one.
    destruct (isdir tree (resolve cwd a)); [|done]. simpl.
    rewrite rmtree_lookup. case_decide as Hp; [|done].
    destruct Hq. etrans; [|exact Hp]. by apply plain_name_below.
Qed.

Lemma removal_stays_below_the_working_directory_witness :
  (WebTerminal.cmd_rmdir_force ["w"; "d"] Examples.busy_tree ["f"; "sub/x"]).1
    !! ["w"; "x"] = Some (File "").
Proof.
  destruct (removal_stays_below_the_working_directory ["w"; "d"]
              Examples.busy_tree ["f"; "sub/x"] ["w"; "x"]) as (_ & _ & H).
  - apply Forall_cons. split; [|apply Forall_cons; split; [|constructor]].
    + split; [reflexivity|]. change (components "f") with ["f"].
      rewrite elem_of_cons, elem_of_nil. intros [H|[]]. discriminate.
    + split; [reflexivity|]. change (components "sub/x") with ["sub"; "x"].
      rewrite !elem_of_cons, elem_of_nil. intros [H|[H|[]]]; discriminate.
  - intros [rest H]. discriminate.
  - rewrite H. reflexivity.
Defined.

(** ** Further properties of the dispatch of the web terminal *)

Lemma first_word_not_blank line c :
  head (split line) = Some c -> is_empty (strip line) = false.
Proof.
  intros H. apply is_empty_false. intros Hs. apply strip_blank in Hs.
  by rewrite Hs in H.
Qed.

(** X10. The [history] command always has something to show: the line
    that asks for it is logged before it runs, so the answer is the last
    ten entries of the history with that line as the last one, and never
    the empty-history notice. *)
Theorem history_shows_its_own_line
    (gemini : nat -> string -> api_reply)
    (shell : string -> path -> filesystem -> shell_outcome)
    (fuel : nat) (st : state) (line : string) :
  head (split line) = Some "history" ->
  execute_command gemini shell fuel st line
  = Some (log_command st line,
          History (last_n 10 (command_history st ++ [line]))) /\
  last (last_n 10 (command_history st ++ [line])) = Some line /\
  length (last_n 10 (command_history st ++ [line])) <= 10.
Proof.
  intros Hh. split; [|split].
  - assert (Hc : classify line = Builtin ShowHistory).
    { unfold classify. destruct (split line) as [|c rest]; [done|].
      injection Hh as ->. reflexivity. }
    rewrite execute_not_natural_fuel by (rewrite Hc; discriminate).
    cbn [execute_command]. rewrite (first_word_not_blank line _ Hh), Hc.
    cbn [run_builtin]. unfold cmd_history. cbn [command_history log_command].
    destruct (command_history st ++ [line]) eqn:E; [|reflexivity].
    by destruct (command_history st).
  - unfold last_n. rewrite length_app. cbn [length].
    rewrite drop_app_le by lia. by rewrite last_snoc.
  - apply last_n_length.
Qed.

Lemma history_shows_its_own_line_witness :
  execute_command Examples.rejecting Examples.quiet_shell 0
    (Examples.fresh false Examples.empty_tree) "history"
  = Some (log_command (Examples.fresh false Examples.empty_tree) "history",
          History ["history"]).
Proof.
  apply (history_shows_its_own_line Examples.rejecting Examples.quiet_shell 0
           (Examples.fresh false Examples.empty_tree) "history").
  reflexivity.
Defined.

Section MoreDispatch.
Variable gemini : nat -> string -> api_reply.
Variable shell : string -> path -> filesystem -> shell_outcome.

Lemma parse_natural_language_history st line :
  command_history (parse_natural_language gemini st line).1
  = command_history st.
Proof.
  unfold parse_natural_language, parse_with_gemini, call_gemini_api.
  repeat case_match; simplify_eq; reflexivity.
Qed.

Lemma execute_command_history_grows fuel st line st' res :
  execute_command gemini shell fuel st line = Some (st', res) ->
  if is_empty (strip line) then command_history st' = command_history st
  else (command_history st ++ [line]) `prefix_of` command_history st'.
Proof.
  revert st line st' res.
  induction fuel as [|fuel IH]; intros st line st' res He;
    destruct (is_empty (strip line)) eqn:Hb.
  1, 3: cbn [execute_command] in He; rewrite Hb in He; by simplify_eq.
  all: assert (classify line = NaturalLanguage \/ classify line <> NaturalLanguage)
         as [Hc|Hc] by (destruct (classify line); auto).
  2, 4: match type of He with
        | execute_command _ _ ?f _ _ = _ =>
            destruct (execute_not_natural gemini shell f st line Hb Hc)
              as (st2 & res2 & He2 & _ & Hh)
        end;
        rewrite He2 in He; simplify_eq; rewrite Hh; reflexivity.
  all: cbn [execute_command] in He; rewrite Hb, Hc in He.
  all: pose proof (parse_natural_language_history (log_command st line) line) as Hp.
  all: destruct (parse_natural_language gemini (log_command st line) line)
         as [st1 natural_cmd].
  all: cbn [fst command_history log_command] in Hp.
  all: destruct (truthy natural_cmd); [|simplify_eq; by rewrite Hp].
  - done.
  - apply IH in He. cbn [command_history say with_output] in He.
    destruct (is_empty (strip (default "" natural_cmd))).
    + by rewrite He, Hp.
    + rewrite Hp in He. etrans; [|exact He]. by apply prefix_app_r.
Qed.

End MoreDispatch.

(** X11. The history of the web terminal only grows: whatever the
    strategy and the replies of the service, a run that ends has kept
    every earlier entry in place and has added the line right after
    them (and after it the commands the line was resolved to). *)
Theorem web_history_only_grows
    (gemini : nat -> string -> api_reply)
    (shell : string -> path -> filesystem -> shell_outcome)
    (fuel : nat) (st st' : state) (line : string) (res : result) :
  not_blank line ->
  execute_command gemini shell fuel st line = Some (st', res) ->
  exists more, command_history st' = command_history st ++ line :: more.
Proof.
  intros Hb He. apply execute_command_history_grows in He.
  unfold not_blank in Hb. rewrite Hb in He. destruct He as [more ->].
  exists more. by rewrite <- app_assoc.
Qed.

Lemma web_history_only_grows_witness :
  exists more,
    command_history
      (log_command (Examples.fresh false Examples.empty_tree) "history")
    = [] ++ "history" :: more.
Proof.
  apply (web_history_only_grows Examples.rejecting Examples.quiet_shell 0
           (Examples.fresh false Examples.empty_tree) _ "history"
           (History ["history"])); reflexivity.
Defined.

Lemma system_command_shell
    (shell1 shell2 : string -> path -> filesystem -> shell_outcome)
    (st : state) (line : string) :
  classify line = SystemCommand ->
  head (split line) <> Some "date" -> head (split line) <> Some "whoami" ->
  execute_system_command shell1 st line = execute_system_command shell2 st line.
Proof.
  intros Hc Hd Hw. unfold execute_system_command.
  destruct (split line) as [|command rest] eqn:Hs; [done|].
  destruct (mem command ["echo"; "date"; "whoami"]) eqn:Hm; [|done].
  apply mem_true in Hm. rewrite !elem_of_cons, elem_of_nil in Hm.
  destruct Hm as [->|[->|[->|[]]]]; [|done|done].
  unfold classify in Hc. rewrite Hs in Hc. discriminate.
Qed.

Lemma execute_not_natural_shell
    (gemini : nat -> string -> api_reply)
    (shell1 shell2 : string -> path -> filesystem -> shell_outcome)
    (fuel : nat) (st : state) (line : string) :
  classify line <> NaturalLanguage ->
  head (split line) <> Some "date" -> head (split line) <> Some "whoami" ->
  execute_command gemini shell1 fuel st line
  = execute_command gemini shell2 fuel st line.
Proof.
  intros Hc Hd Hw. rewrite !(execute_not_natural_fuel _ _ fuel) by done.
  cbn [execute_command]. destruct (is_empty (strip line)); [done|].
  destruct (classify line) eqn:Hcl; [done|done|].
  by rewrite (system_command_shell shell1 shell2).
Qed.

(** X12. With the deterministic strategy the system shell is reached only
    by lines whose first word is [date] or [whoami]: for every other line
    the outcome of [execute_command] is the same whatever the shell would
    do. *)
Theorem only_date_and_whoami_reach_the_shell
    (gemini : nat -> string -> api_reply)
    (shell1 shell2 : string -> path -> filesystem -> shell_outcome)
    (fuel : nat) (st : state) (line : string) :
  ai_enabled st = false ->
  head (split line) <> Some "date" -> head (split line) <> Some "whoami" ->
  execute_command gemini shell1 (S fuel) st line
  = execute_command gemini shell2 (S fuel) st line.
Proof.
  intros Hai Hd Hw.
  destruct (classify line) eqn:Hc.
  1, 3: apply execute_not_natural_shell; try done; by rewrite Hc.
  cbn [execute_command]. destruct (is_empty (strip line)); [done|].
  rewrite Hc, parse_deterministic by done.
  destruct (parse_with_fallback_patterns line) as [r|] eqn:Hr; [|done].
  destruct (truthy (Some r)); [|done].
  change (default "" (Some r)) with r.
  pose proof (fallback_canonical line r Hr) as Hcan.
  apply execute_not_natural_shell.
  - by apply classify_canonical_not_natural.
  - destruct (canonical_head r Hcan) as (c & -> & Hin).
    unfold resolver_names in Hin. rewrite !elem_of_cons, elem_of_nil in Hin.
    intros [= ->]. repeat (destruct Hin as [Hin|Hin]; [discriminate|]). done.
  - destruct (canonical_head r Hcan) as (c & -> & Hin).
    unfold resolver_names in Hin. rewrite !elem_of_cons, elem_of_nil in Hin.
    intros [= ->]. repeat (destruct Hin as [Hin|Hin]; [discriminate|]). done.
Qed.

Lemma only_date_and_whoami_reach_the_shell_witness :
  execute_command Examples.rejecting Examples.quiet_shell 1
    (Examples.fresh false Examples.busy_tree) "uname -a"
  = execute_command Examples.rejecting
      (fun _ _ _ => {| sh_fs := ∅; sh_completed := None |}) 1
      (Examples.fresh false Examples.busy_tree) "uname -a".
Proof.
  apply (only_date_and_whoami_reach_the_shell Examples.rejecting
           Examples.quiet_shell _ 0 (Examples.fresh false Examples.busy_tree)
           "uname -a"); [reflexivity| |]; vm_compute; discriminate.
Defined.

(** X13. A built-in that needs an operand, typed without one, is not run:
    the line is logged and answered as a command that is not available,
    and the file tree stays as it is. *)
Theorem builtin_without_operand_is_not_available
    (gemini : nat -> string -> api_reply)
    (shell : string -> path -> filesystem -> shell_outcome)
    (fuel : nat) (st : state) (line c : string) :
  split line = [c] ->
  c ∈ ["mkdir"; "touch"; "cat"; "rm"; "del"; "rmdir"; "edit"] ->
  execute_command gemini shell fuel st line
  = Some (log_command st line, CommandNotAvailable c).
Proof.
  intros Hs Hc.
  assert (Hsys : classify line = SystemCommand).
  { assert (Hn : classify line <> NaturalLanguage).
    { apply (builtin_not_natural line c []); [done|].
      unfold builtin_names. rewrite !elem_of_cons, elem_of_nil in Hc.
      rewrite !elem_of_cons. tauto. }
    unfold classify in *. rewrite Hs in *.
    rewrite !elem_of_cons, elem_of_nil in Hc.
    destruct Hc as [->|[->|[->|[->|[->|[->|[->|[]]]]]]]]; simpl in *;
      by destruct (looks_like_natural_language line). }
  rewrite execute_not_natural_fuel by (rewrite Hsys; discriminate).
  cbn [execute_command].
  rewrite (first_word_not_blank line c) by (by rewrite Hs).
  rewrite Hsys. unfold execute_system_command. rewrite Hs.
  rewrite !elem_of_cons, elem_of_nil in Hc.
  by destruct Hc as [->|[->|[->|[->|[->|[->|[->|[]]]]]]]].
Qed.

Lemma builtin_without_operand_is_not_available_witness :
  execute_command Examples.rejecting Examples.quiet_shell 0
    (Examples.fresh false Examples.busy_tree) "  rm "
  = Some (log_command (Examples.fresh false Examples.busy_tree) "  rm ",
          CommandNotAvailable "rm").
Proof.
  apply (builtin_without_operand_is_not_available Examples.rejecting
           Examples.quiet_shell 0 (Examples.fresh false Examples.busy_tree)
           "  rm " "rm"); [reflexivity|].
  rewrite !elem_of_cons. tauto.
Defined.

(** X14. A command that comes out of [parse_natural_language] is never
    blank, with either strategy and whatever the service answers, so its
    run is always logged and dispatched. *)
Theorem resolved_command_is_never_blank
    (gemini : nat -> string -> api_reply) (st st' : state) (line r : string) :
  parse_natural_language gemini st line = (st', Some r) -> not_blank r.
Proof.
  unfold parse_natural_language, not_blank.
  destruct (ai_enabled st).
  - unfold parse_with_gemini.
    destruct (call_gemini_api gemini st line) as [st1 [r0|]]; [|done].
    destruct (negb (is_empty r0) && negb (is_empty (strip r0))) eqn:Hn; [|done].
    intros [= <- <-]. apply andb_true_iff in Hn as [_ Hn].
    apply negb_true_iff in Hn. apply is_empty_false. intros Hs.
    apply strip_blank in Hs. rewrite split_strip in Hs.
    apply split_blank in Hs. rewrite Hs in Hn. discriminate.
  - intros [= <- Hr]. by apply canonical_not_blank, (fallback_canonical line).
Qed.

Lemma resolved_command_is_never_blank_witness :
  not_blank "list everything".
Proof.
  apply (resolved_command_is_never_blank Examples.chatty
           (Examples.fresh true Examples.empty_tree)
           (parse_natural_language Examples.chatty
              (Examples.fresh true Examples.empty_tree) "hm").1 "hm").
  reflexivity.
Defined.

(** ** Further properties of the deterministic resolver *)

Lemma any_in_mentions (phrases : list string) (line : string) :
  Forall (fun k => starts_solid k = true /\ ends_solid k = true) phrases ->
  any_in phrases (strip (lower line)) = true <-> mentions phrases line.
Proof.
  intros Hsolid. rewrite any_in_true. unfold mentions.
  split; intros (k & Hk & Hc); exists k; (split; [done|]);
    destruct (proj1 (Forall_forall _ _) Hsolid k Hk) as [Hs He];
    by apply (contains_strip k _ Hs He).
Qed.

Lemma any_in_not_mentions (phrases : list string) (line : string) :
  Forall (fun k => starts_solid k = true /\ ends_solid k = true) phrases ->
  ~ mentions phrases line -> any_in phrases (strip (lower line)) = false.
Proof.
  intros Hsolid Hn. destruct (any_in phrases (strip (lower line))) eqn:E; [|done].
  by apply any_in_mentions in E.
Qed.

Lemma two_word_rule_other (ow : list string) :
  length ow <> 2 -> two_word_rule ow = None.
Proof. by destruct ow as [|? [|? [|]]]. Qed.

(** X15. The counting rule comes before every other rule but the two-word
    imperative: a line of other than two words that holds one of the
    counting phrases anywhere resolves to [count], whatever else it asks
    for. *)
Theorem counting_rule_has_priority (line : string) :
  length (split line) <> 2 -> mentions count_phrases line ->
  parse_with_fallback_patterns line = Some "count".
Proof.
  intros Hlen Hm. unfold parse_with_fallback_patterns.
  rewrite (two_word_rule_other _ Hlen).
  apply (any_in_mentions count_phrases) in Hm; [|repeat constructor].
  unfold count_phrases in Hm. by rewrite Hm.
Qed.

Lemma counting_rule_has_priority_witness :
  parse_with_fallback_patterns "delete the file count.txt" = Some "count".
Proof.
  apply counting_rule_has_priority; [vm_compute; lia|].
  exists "count". split; [left|]. exists "delete the file ", ".txt". reflexivity.
Defined.

Lemma rmdir_scan_removal ow i ws r : rmdir_scan ow i ws = Some r -> removal r.
Proof.
  revert i. induction ws as [|word rest IH]; intros i; simpl; [done|].
  repeat case_match; try apply IH; intros [= <-]; eexists; by right.
Qed.

Lemma rm_first_dotted_removal ow r : rm_first_dotted ow = Some r -> removal r.
Proof.
  induction ow as [|w ow IH]; simpl; [done|].
  case_match; [|exact IH]. intros [= <-]. eexists; by left.
Qed.

Lemma rm_keyword_scan_removal ow i ws r :
  rm_keyword_scan ow i ws = Some r -> removal r.
Proof.
  revert i. induction ws as [|word rest IH]; intros i; simpl; [done|].
  repeat case_match; try apply IH; intros [= <-]; eexists; by left.
Qed.

Lemma rm_verb_scan_removal ow i ws r : rm_verb_scan ow i ws = Some r -> removal r.
Proof.
  revert i. induction ws as [|word rest IH]; intros i; simpl; [done|].
  repeat case_match; try apply IH; intros [= <-]; eexists; by left.
Qed.

Lemma deletion_removal cmd_lower ow : removal (deletion cmd_lower ow).
Proof.
  unfold deletion. repeat case_match;
    eauto using rmdir_scan_removal, rm_first_dotted_removal,
      rm_keyword_scan_removal, rm_verb_scan_removal.
  - exists "temp". by right.
  - exists "temp.txt". by left.
Qed.

(** X16. The deletion rule fires on the letters, not on the words: a line
    of other than two words with no counting phrase in which [del],
    [delete] or [remove] occurs anywhere, also inside another word,
    resolves to an [rm] or an [rmdir] command. *)
Theorem deletion_rule_fires_on_substrings (line : string) :
  length (split line) <> 2 -> ~ mentions count_phrases line ->
  mentions deletion_phrases line ->
  exists t,
    parse_with_fallback_patterns line = Some ("rm " +:+ t) \/
    parse_with_fallback_patterns line = Some ("rmdir " +:+ t).
Proof.
  intros Hlen Hcount Hdel. unfold parse_with_fallback_patterns.
  rewrite (two_word_rule_other _ Hlen).
  apply (any_in_not_mentions count_phrases) in Hcount; [|repeat constructor].
  apply (any_in_mentions deletion_phrases) in Hdel; [|repeat constructor].
  unfold count_phrases in Hcount. unfold deletion_phrases in Hdel.
  rewrite Hcount, Hdel.
  destruct (deletion_removal (strip (lower line)) (split line)) as [t [H|H]];
    exists t; rewrite H; auto.
Qed.

Lemma not_mentions_check (phrases : list string) (line : string) :
  any_in phrases (lower line) = false -> ~ mentions phrases line.
Proof.
  intros Hf (k & Hk & Hc). apply contains_spec in Hc.
  assert (any_in phrases (lower line) = true); [|congruence].
  apply any_in_true. eauto.
Qed.

Lemma deletion_rule_fires_on_substrings_witness :
  exists t,
    parse_with_fallback_patterns "list all models" = Some ("rm " +:+ t) \/
    parse_with_fallback_patterns "list all models" = Some ("rmdir " +:+ t).
Proof.
  apply deletion_rule_fires_on_substrings.
  - vm_compute. lia.
  - apply not_mentions_check. reflexivity.
  - exists "del". split; [unfold deletion_phrases; rewrite !elem_of_cons; tauto|].
    exists "list all mo", "s". reflexivity.
Defined.

Lemma contains_dot_extension f cmd_lower :
  contains "." (f +:+ extension cmd_lower) = true.
Proof.
  apply contains_spec. unfold extension.
  repeat case_match;
    [exists f, "py"|exists f, "txt"|exists f, "html"|exists f, "css"
    |exists f, "js"|exists f, "txt"]; reflexivity.
Qed.

Lemma create_file_dotted cmd_lower ow :
  exists f, create_file cmd_lower ow = "touch " +:+ f /\ contains "." f = true.
Proof.
  unfold create_file.
  set (filename := if negb (truthy _) then _ else _).
  destruct filename as [f|]; [|by exists "newfile.txt"].
  destruct (negb (is_empty f)); [|by exists "newfile.txt"].
  destruct (negb (contains "." f)) eqn:Hd.
  - exists (f +:+ extension cmd_lower). split; [reflexivity|].
    apply contains_dot_extension.
  - exists f. split; [reflexivity|]. by apply negb_false_iff in Hd.
Qed.

(** X17. Outside the two-word imperative, every file the creation rule
    names has a dot in its name: a line of other than two words with no
    counting and no deletion phrase that mentions [create] or [make] and
    [file] resolves to [touch] of a name with an extension (a default one
    when the words give none). *)
Theorem created_file_has_an_extension (line : string) :
  length (split line) <> 2 ->
  ~ mentions count_phrases line -> ~ mentions deletion_phrases line ->
  mentions ["create"; "make"] line -> occurs_in "file" (lower line) ->
  exists f,
    parse_with_fallback_patterns line = Some ("touch " +:+ f) /\
    occurs_in "." f.
Proof.
  intros Hlen Hcount Hdel Hmake Hfile. unfold parse_with_fallback_patterns.
  rewrite (two_word_rule_other _ Hlen).
  apply (any_in_not_mentions count_phrases) in Hcount; [|repeat constructor].
  apply (any_in_not_mentions deletion_phrases) in Hdel; [|repeat constructor].
  apply (any_in_mentions ["create"; "make"]) in Hmake; [|repeat constructor].
  unfold count_phrases in Hcount. unfold deletion_phrases in Hdel.
  rewrite Hcount, Hdel.
  unfold any_in in Hmake. cbn [existsb] in Hmake. rewrite orb_false_r in Hmake.
  rewrite Hmake. unfold creation.
  apply (contains_strip "file" _ eq_refl eq_refl) in Hfile. rewrite Hfile.
  destruct (create_file_dotted (strip (lower line)) (split line)) as (f & -> & Hf).
  exists f. split; [reflexivity|]. by apply contains_spec.
Qed.

Lemma created_file_has_an_extension_witness :
  exists f,
    parse_with_fallback_patterns "make a python file named tool"
    = Some ("touch " +:+ f) /\ occurs_in "." f.
Proof.
  apply created_file_has_an_extension.
  - vm_compute. lia.
  - apply not_mentions_check. reflexivity.
  - apply not_mentions_check. reflexivity.
  - exists "make". split; [rewrite !elem_of_cons; tauto|].
    exists "", " a python file named tool". reflexivity.
  - exists "make a python ", " named tool". reflexivity.
Defined.

(** ** Further properties of the command-line terminal *)

(** X18. [cd -] goes back and forth: with a previous directory recorded,
    when both directories still exist and [chdir] accepts them, one [cd -]
    moves to the previous directory and records the one left, and a second
    one gives back the session as it was. *)
Theorem cd_dash_twice_restores_the_session
    (home : string) (chdir_denied : path -> bool)
    (s : PythonTerminal.session) (w : PythonTerminal.world) (b : path) :
  PythonTerminal.prev_directory s = Some b ->
  isdir (PythonTerminal.fs w) b = true ->
  isdir (PythonTerminal.fs w) (PythonTerminal.current_directory s) = true ->
  chdir_denied b = false ->
  chdir_denied (PythonTerminal.current_directory s) = false ->
  let first := PythonTerminal.cmd_cd home chdir_denied s w "-" in
  PythonTerminal.current_directory first.1.1 = b /\
  PythonTerminal.prev_directory first.1.1
  = Some (PythonTerminal.current_directory s) /\
  PythonTerminal.os_cwd first.1.2 = b /\
  PythonTerminal.cmd_cd home chdir_denied first.1.1 first.1.2 "-"
  = (s, {| PythonTerminal.fs := PythonTerminal.fs w;
           PythonTerminal.os_cwd := PythonTerminal.current_directory s |},
     PythonTerminal.ChangedTo (PythonTerminal.current_directory s)).
Proof.
  intros Hprev Hb Ha Hdb Hda first.
  assert (Hex : forall p, isdir (PythonTerminal.fs w) p = true ->
                          exists_ (PythonTerminal.fs w) p = true).
  { intros p Hp. unfold exists_, isdir in *. apply bool_decide_eq_true.
    by destruct (PythonTerminal.fs w !! p). }
  assert (Hfirst : first
          = ({| PythonTerminal.current_directory := b;
                PythonTerminal.prev_directory :=
                  Some (PythonTerminal.current_directory s);
                PythonTerminal.command_history := PythonTerminal.command_history s;
                PythonTerminal.running := PythonTerminal.running s |},
             {| PythonTerminal.fs := PythonTerminal.fs w;
                PythonTerminal.os_cwd := b |},
             PythonTerminal.ChangedTo b)).
  { unfold first, PythonTerminal.cmd_cd, PythonTerminal.cd_target.
    simpl. rewrite Hprev. simpl. by rewrite (Hex b Hb), Hb, Hdb. }
  rewrite Hfirst. simpl. repeat split.
  unfold PythonTerminal.cmd_cd, PythonTerminal.cd_target. simpl.
  rewrite (Hex _ Ha), Ha, Hda. simpl.
  destruct s as [cur prev hist run]. simpl in *. by rewrite Hprev.
Qed.

Lemma cd_dash_twice_restores_the_session_witness :
  PythonTerminal.cmd_cd "/home" Examples.never_denied
    (PythonTerminal.cmd_cd "/home" Examples.never_denied
       (PythonTerminal.cmd_cd "/home" Examples.never_denied
          Examples.cli_session (Examples.cli_world Examples.busy_tree) "d").1.1
       (PythonTerminal.cmd_cd "/home" Examples.never_denied
          Examples.cli_session (Examples.cli_world Examples.busy_tree) "d").1.2
       "-").1.1
    (PythonTerminal.cmd_cd "/home" Examples.never_denied
       (PythonTerminal.cmd_cd "/home" Examples.never_denied
          Examples.cli_session (Examples.cli_world Examples.busy_tree) "d").1.1
       (PythonTerminal.cmd_cd "/home" Examples.never_denied
          Examples.cli_session (Examples.cli_world Examples.busy_tree) "d").1.2
       "-").1.2
    "-"
  = ((PythonTerminal.cmd_cd "/home" Examples.never_denied
        Examples.cli_session (Examples.cli_world Examples.busy_tree) "d").1.1,
     {| PythonTerminal.fs := Examples.busy_tree;
        PythonTerminal.os_cwd := ["w"; "d"] |},
     PythonTerminal.ChangedTo ["w"; "d"]).
Proof.
  apply (cd_dash_twice_restores_the_session "/home" Examples.never_denied
           (PythonTerminal.cmd_cd "/home" Examples.never_denied
              Examples.cli_session (Examples.cli_world Examples.busy_tree)
              "d").1.1
           (PythonTerminal.cmd_cd "/home" Examples.never_denied
              Examples.cli_session (Examples.cli_world Examples.busy_tree)
              "d").1.2 ["w"]); reflexivity.
Defined.

Section MoreCli.
Import PythonTerminal.
Variable home : string.
Variable chdir_denied : path -> bool.
Variable shlex_split : string -> option (list string).
Variable external : string -> world -> world.

Lemma for_each_os_cwd (f : world -> string -> world * message) w args :
  (forall w0 a, os_cwd (f w0 a).1 = os_cwd w0) ->
  os_cwd (for_each f w args).1 = os_cwd w.
Proof.
  intros Hf. revert w. induction args as [|a rest IH]; intros w; [done|].
  simpl. pose proof (Hf w a) as Ha. destruct (f w a) as [w1 m].
  specialize (IH w1). destruct (for_each f w1 rest) as [w2 ms].
  simpl in *. congruence.
Qed.

Lemma handlers_os_cwd w args :
  os_cwd (cmd_mkdir w args).1 = os_cwd w /\
  os_cwd (cmd_rmdir w args).1 = os_cwd w /\
  os_cwd (cmd_rm w args).1 = os_cwd w /\
  os_cwd (cmd_touch w args).1 = os_cwd w /\
  os_cwd (cmd_cat w args).1 = os_cwd w.
Proof.
  unfold cmd_mkdir, cmd_rmdir, cmd_rm, cmd_touch, cmd_cat.
  repeat split; (destruct args; [done|]); apply for_each_os_cwd;
    intros w0 a0;
    unfold mkdir_one, rmdir_one, rm_one, touch_one, cat_one;
    repeat case_match; done.
Qed.

Lemma execute_command_in_step s w line :
  (forall p, chdir_denied p = false) ->
  (forall l w0, os_cwd (external l w0) = os_cwd w0) ->
  current_directory s = os_cwd w ->
  let r := execute_command home chdir_denied shlex_split external s w line in
  current_directory r.1.1 = os_cwd r.1.2.
Proof.
  intros Hden Hext Hsync. unfold execute_command.
  destruct (is_empty (strip line)); [done|].
  destruct (shlex_split line) as [[|a0 args]|]; try done.
  unfold dispatch.
  destruct (handlers_os_cwd w args) as (H1 & H2 & H3 & H4 & H5).
  repeat case_match; simplify_eq; simpl in *; try congruence.
  match goal with H : cmd_cd _ _ _ _ _ = _ |- _ => unfold cmd_cd in H end.
  repeat case_match; simplify_eq; simpl in *; try done.
  by rewrite Hden in *.
Qed.

End MoreCli.

(** X19. The terminal and the process stay in step: when [chdir] refuses
    no directory and the commands handed to the system leave the working
    directory of the process alone, [current_directory] equals the
    directory of the process after every run of lines, as before it. *)
Theorem current_directory_follows_the_process
    (home : string) (chdir_denied : path -> bool)
    (shlex_split : string -> option (list string))
    (external : string -> PythonTerminal.world -> PythonTerminal.world)
    (s : PythonTerminal.session) (w : PythonTerminal.world)
    (lines : list string) :
  (forall p, chdir_denied p = false) ->
  (forall l w0, PythonTerminal.os_cwd (external l w0) = PythonTerminal.os_cwd w0) ->
  PythonTerminal.current_directory s = PythonTerminal.os_cwd w ->
  PythonTerminal.current_directory
    (PythonTerminal.run_session home chdir_denied shlex_split external
       s w lines).1
  = PythonTerminal.os_cwd
      (PythonTerminal.run_session home chdir_denied shlex_split external
         s w lines).2.
Proof.
  intros Hden Hext. revert s w.
  induction lines as [|l rest IH]; intros s w Hsync; [done|].
  simpl.
  pose proof (execute_command_in_step home chdir_denied shlex_split external
                s w l Hden Hext Hsync) as Hstep.
  destruct (PythonTerminal.execute_command _ _ _ _ s w l) as [[s1 w1] ms].
  by apply IH.
Qed.

Lemma current_directory_follows_the_process_witness :
  PythonTerminal.current_directory
    (PythonTerminal.run_session "/home" Examples.never_denied
       Examples.plain_split Examples.idle Examples.cli_session
       (Examples.cli_world Examples.busy_tree) ["cd d"; "rm f"; "cd -"]).1
  = PythonTerminal.os_cwd
      (PythonTerminal.run_session "/home" Examples.never_denied
         Examples.plain_split Examples.idle Examples.cli_session
         (Examples.cli_world Examples.busy_tree) ["cd d"; "rm f"; "cd -"]).2.
Proof.
  apply current_directory_follows_the_process; reflexivity.
Defined.

(** X20. A denied [chdir] leaves the two apart: the directory exists, the
    terminal has moved to it and recorded the one it left, and the process
    is where it was; unless that is the same directory, the names of the
    next commands are resolved in a directory other than the one the
    terminal shows. *)
Theorem denied_chdir_moves_the_terminal_only
    (home : string) (chdir_denied : path -> bool)
    (s : PythonTerminal.session) (w : PythonTerminal.world) (target : string) :
  let p := PythonTerminal.cd_target home s w target in
  isdir (PythonTerminal.fs w) p = true -> chdir_denied p = true ->
  let after := PythonTerminal.cmd_cd home chdir_denied s w target in
  after
  = ({| PythonTerminal.current_directory := p;
        PythonTerminal.prev_directory :=
          Some (PythonTerminal.current_directory s);
        PythonTerminal.command_history := PythonTerminal.command_history s;
        PythonTerminal.running := PythonTerminal.running s |},
     w, PythonTerminal.CdError) /\
  (PythonTerminal.os_cwd w <> p ->
   PythonTerminal.current_directory after.1.1
   <> PythonTerminal.os_cwd after.1.2).
Proof.
  intros p Hd Hden after.
  assert (He : exists_ (PythonTerminal.fs w) p = true).
  { unfold exists_, isdir in *. apply bool_decide_eq_true.
    by destruct (PythonTerminal.fs w !! p). }
  assert (Ha : after
          = ({| PythonTerminal.current_directory := p;
                PythonTerminal.prev_directory :=
                  Some (PythonTerminal.current_directory s);
                PythonTerminal.command_history :=
                  PythonTerminal.command_history s;
                PythonTerminal.running := PythonTerminal.running s |},
             w, PythonTerminal.CdError)).
  { unfold after, PythonTerminal.cmd_cd. fold p. by rewrite He, Hd, Hden. }
  rewrite Ha. split; [reflexivity|]. simpl. intros Hne E. by apply Hne.
Qed.

Lemma denied_chdir_moves_the_terminal_only_witness :
  PythonTerminal.cmd_cd "/home" (fun _ => true) Examples.cli_session
    (Examples.cli_world Examples.busy_tree) "d"
  = ({| PythonTerminal.current_directory := ["w"; "d"];
        PythonTerminal.prev_directory := Some ["w"];
        PythonTerminal.command_history := [];
        PythonTerminal.running := true |},
     Examples.cli_world Examples.busy_tree, PythonTerminal.CdError).
Proof.
  apply (denied_chdir_moves_the_terminal_only "/home" (fun _ => true)
           Examples.cli_session (Examples.cli_world Examples.busy_tree) "d");
    reflexivity.
Defined.

(** X21. Only [exit] and [quit], in any case, stop the terminal: if a
    line leaves [running] false, either it was false before or the first
    word of the line, lowercased, is one of the two. *)
Theorem only_exit_and_quit_stop_the_terminal
    (home : string) (chdir_denied : path -> bool)
    (shlex_split : string -> option (list string))
    (external : string -> PythonTerminal.world -> PythonTerminal.world)
    (s : PythonTerminal.session) (w : PythonTerminal.world) (line : string) :
  PythonTerminal.running
    (PythonTerminal.execute_command home chdir_denied shlex_split external
       s w line).1.1 = false ->
  PythonTerminal.running s = false \/
  exists a0 args,
    shlex_split line = Some (a0 :: args) /\ lower a0 ∈ ["exit"; "quit"].
Proof.
  unfold PythonTerminal.execute_command.
  destruct (is_empty (strip line)); [by left|].
  destruct (shlex_split line) as [[|a0 args]|]; try (by left).
  unfold PythonTerminal.dispatch.
  destruct (mem (lower a0) ["exit"; "quit"]) eqn:Hm.
  { intros _. right. exists a0, args. split; [done|].
    by apply ClassifierFacts.mem_true. }
  intros Hr. left.
  repeat case_match; simplify_eq; simpl in *; try done.
  match goal with H : PythonTerminal.cmd_cd _ _ _ _ _ = _ |- _ =>
    unfold PythonTerminal.cmd_cd in H end.
  repeat case_match; simplify_eq; simpl in *; done.
Qed.

Lemma only_exit_and_quit_stop_the_terminal_witness :
  PythonTerminal.running Examples.cli_session = false \/
  exists a0 args,
    Examples.plain_split "QUIT now" = Some (a0 :: args) /\
    lower a0 ∈ ["exit"; "quit"].
Proof.
  apply (only_exit_and_quit_stop_the_terminal "/home" Examples.never_denied
           Examples.plain_split Examples.idle Examples.cli_session
           (Examples.cli_world Examples.busy_tree) "QUIT now").
  reflexivity.
Defined.




(** X23. [ls] reads its path from the first argument only: a path that
    follows an option is ignored and the current directory is listed. *)
Theorem ls_ignores_a_path_after_an_option
    (s : PythonTerminal.session) (w : PythonTerminal.world)
    (option target : string) :
  startswith option "-" = true -> target <> "-l" -> target <> "-a" ->
  More.cmd_ls s w [option; target] = More.cmd_ls s w [option].
Proof.
  intros Ho Hl Ha. unfold More.cmd_ls. rewrite Ho. simpl.
  assert (Hm : forall x, x <> target ->
                 mem x [option; target] = mem x [option]).
  { intros x Hx. unfold mem. apply bool_decide_ext.
    rewrite !elem_of_cons, !elem_of_nil. tauto. }
  by rewrite !Hm by done.
Qed.

Lemma ls_ignores_a_path_after_an_option_witness :
  More.cmd_ls Examples.cli_session (Examples.cli_world Examples.busy_tree) ["-a"; "d"]
  = More.cmd_ls Examples.cli_session (Examples.cli_world Examples.busy_tree) ["-a"].
Proof.
  apply ls_ignores_a_path_after_an_option; [reflexivity|discriminate..].
Defined.

(** ** What the listings show *)

Lemma child_name_snoc (d : path) (name : string) :
  child_name d (d ++ [name]) = Some name.
Proof.
  unfold child_name. rewrite last_snoc. by rewrite bool_decide_eq_true_2.
Qed.

Lemma elem_of_children (tree : filesystem) (d : path) (name : string) :
  name ∈ children tree d <-> is_Some (tree !! (d ++ [name])).
Proof.
  unfold children. rewrite list_elem_of_omap. split.
  - intros (k & Hk & Hc). apply child_name_some in Hc as ->.
    apply list_elem_of_fmap in Hk as ([k n] & Hkn & Hin). simpl in Hkn.
    subst k. apply elem_of_map_to_list in Hin. by exists n.
  - intros [n Hn]. exists (d ++ [name]). split; [|apply child_name_snoc].
    apply list_elem_of_fmap. exists (d ++ [name], n).
    split; [done|]. by apply elem_of_map_to_list.
Qed.

(** X24. What [ls] of the web terminal lists: the names come in ascending
    order, they are exactly the names of the entries that lie directly in
    the working directory, and each is marked as a directory when the
    path it resolves to is one. *)
Theorem web_ls_lists_the_working_directory
    (cwd : path) (fs0 : filesystem) (entries : list (string * bool)) :
  WebTerminal.cmd_ls cwd fs0 = WebTerminal.DirectoryContents entries ->
  Sorted String.le entries.*1 /\
  (forall name, name ∈ entries.*1 <-> is_Some (fs0 !! (cwd ++ [name]))) /\
  (forall name mark,
     (name, mark) ∈ entries -> mark = isdir fs0 (resolve cwd name)).
Proof.
  unfold WebTerminal.cmd_ls, listdir.
  destruct (fs0 !! cwd) as [[]|]; try done.
  destruct (children fs0 cwd) as [|i items] eqn:Hc; [done|].
  intros [= <-]. rewrite <- Hc. clear Hc i items. repeat split.
  - rewrite <- list_fmap_compose. change (fst ∘ _) with (@id string).
    rewrite list_fmap_id. apply Sorted_merge_sort. apply _.
  - rewrite <- list_fmap_compose. change (fst ∘ _) with (@id string).
    rewrite list_fmap_id, merge_sort_Permutation.
    apply elem_of_children.
  - rewrite <- list_fmap_compose. change (fst ∘ _) with (@id string).
    rewrite list_fmap_id, merge_sort_Permutation.
    apply elem_of_children.
  - intros name mark Hin. apply list_elem_of_fmap in Hin as (item & Heq & _).
    by simplify_eq.
Qed.

Lemma web_ls_lists_the_working_directory_witness :
  Sorted String.le [("d", true); ("x", false)].*1.
Proof.
  apply (web_ls_lists_the_working_directory Examples.work_dir
           Examples.busy_tree [("d", true); ("x", false)]).
  vm_compute. reflexivity.
Defined.

Lemma new_entry_is_listed (cwd : path) (fs0 : filesystem) (name : string)
    (n : node) :
  isdir fs0 cwd = true -> fs0 !! (cwd ++ [name]) = None ->
  let fs1 := <[cwd ++ [name] := n]> fs0 in
  fs1 !! cwd = Some Dir /\ name ∈ children fs1 cwd /\
  length (children fs1 cwd) = S (length (children fs0 cwd)).
Proof.
  intros Hd Hn fs1.
  assert (Hne : cwd <> cwd ++ [name]).
  { intros E. apply (f_equal length) in E. rewrite length_app in E.
    simpl in E. lia. }
  split; [|split].
  - unfold fs1. rewrite lookup_insert_ne by (intros E; by apply Hne).
    unfold isdir in Hd. by destruct (fs0 !! cwd) as [[]|].
  - apply elem_of_children. unfold fs1. rewrite lookup_insert_eq. by eexists.
  - unfold children, fs1.
    rewrite (fmap_Permutation fst _ _ (map_to_list_insert fs0 _ n Hn)).
    simpl. by rewrite child_name_snoc.
Qed.

(** X25. What [touch] makes shows up in [ls] and in [count]: after a
    simple name that was absent is touched in the working directory, [ls]
    answers with a listing that holds the name, marked as no directory,
    and never with the empty-directory notice, and the total of [count]
    is one more than the number of entries before. *)
Theorem touched_file_is_listed_and_counted
    (cwd : path) (fs0 : filesystem) (name : string) :
  resolve cwd name = cwd ++ [name] ->
  isdir fs0 cwd = true -> fs0 !! (cwd ++ [name]) = None ->
  let fs1 := (WebTerminal.cmd_touch cwd fs0 [name]).1 in
  (exists entries,
     WebTerminal.cmd_ls cwd fs1 = WebTerminal.DirectoryContents entries /\
     (name, false) ∈ entries) /\
  (exists files dirs,
     WebTerminal.cmd_count cwd fs1
     = WebTerminal.FileCount files dirs (S (length (children fs0 cwd)))).
Proof.
  intros Hr Hd Hn fs1.
  assert (Hfs1 : fs1 = <[cwd ++ [name] := File ""]> fs0).
  { unfold fs1, WebTerminal.cmd_touch. simpl.
    unfold WebTerminal.touch_one, touch_file, create_at.
    rewrite Hr, Hn, parent_snoc. unfold isdir in Hd.
    by destruct (fs0 !! cwd) as [[]|]. }
  destruct (new_entry_is_listed cwd fs0 name (File "") Hd Hn)
    as (Hcwd & Hin & Hlen).
  rewrite <- Hfs1 in Hcwd, Hin, Hlen. clearbody fs1. split.
  - unfold WebTerminal.cmd_ls, listdir. rewrite Hcwd.
    destruct (children fs1 cwd) as [|i items] eqn:Hc.
    { by apply elem_of_nil in Hin. }
    eexists. split; [reflexivity|].
    apply list_elem_of_fmap. exists name.
    split; [|by rewrite merge_sort_Permutation].
    f_equal. unfold isdir. by rewrite Hr, Hfs1, lookup_insert_eq.
  - unfold WebTerminal.cmd_count, listdir. rewrite Hcwd.
    eexists _, _. by rewrite Hlen.
Qed.

Lemma touched_file_is_listed_and_counted_witness :
  exists files dirs,
    WebTerminal.cmd_count Examples.work_dir
      (WebTerminal.cmd_touch Examples.work_dir Examples.busy_tree ["n"]).1
    = WebTerminal.FileCount files dirs
        (S (length (children Examples.busy_tree Examples.work_dir))).
Proof.
  apply (touched_file_is_listed_and_counted Examples.work_dir
           Examples.busy_tree "n"); reflexivity.
Defined.

Lemma last_drop_snoc {A} (k : nat) (l : list A) (x : A) :
  k <= length l -> last (drop k (l ++ [x])) = Some x.
Proof. intros Hk. rewrite drop_app_le by done. apply last_snoc. Qed.

(** X26. The [history] command of the command-line terminal shows its own
    line: the line is recorded before the command runs, so the listing is
    the last twenty entries of the history after the append, at most
    twenty of them, with the line that asked as the last one; the process
    is left alone. *)
Theorem cli_history_lists_the_last_twenty
    (home : string) (chdir_denied : path -> bool)
    (shlex_split : string -> option (list string))
    (external : string -> PythonTerminal.world -> PythonTerminal.world)
    (s : PythonTerminal.session) (w : PythonTerminal.world)
    (line a0 : string) (args : list string) :
  not_blank line -> shlex_split line = Some (a0 :: args) ->
  lower a0 = "history" ->
  let h := PythonTerminal.record_history (PythonTerminal.command_history s)
             line in
  PythonTerminal.execute_command home chdir_denied shlex_split external
    s w line
  = ({| PythonTerminal.current_directory := PythonTerminal.current_directory s;
        PythonTerminal.prev_directory := PythonTerminal.prev_directory s;
        PythonTerminal.command_history := h;
        PythonTerminal.running := PythonTerminal.running s |},
     w, [PythonTerminal.HistoryListing (last_n 20 h)]) /\
  last (last_n 20 h) = Some line /\ length (last_n 20 h) <= 20.
Proof.
  intros Hb Hs Ha h. split; [|split].
  - unfold PythonTerminal.execute_command. unfold not_blank in Hb.
    rewrite Hb, Hs, Ha. reflexivity.
  - unfold h, PythonTerminal.record_history, last_n.
    case_bool_decide as Hlen; rewrite length_app in Hlen; simpl in Hlen.
    + rewrite drop_drop, length_drop, length_app. simpl.
      apply last_drop_snoc. lia.
    + rewrite length_app. simpl. apply last_drop_snoc. lia.
  - apply last_n_length.
Qed.

Lemma cli_history_lists_the_last_twenty_witness :
  PythonTerminal.execute_command "/home" Examples.never_denied
    Examples.plain_split Examples.idle Examples.cli_session
    (Examples.cli_world Examples.busy_tree) "History"
  = ({| PythonTerminal.current_directory := ["w"];
        PythonTerminal.prev_directory := None;
        PythonTerminal.command_history := ["History"];
        PythonTerminal.running := true |},
     Examples.cli_world Examples.busy_tree,
     [PythonTerminal.HistoryListing ["History"]]).
Proof.
  apply (cli_history_lists_the_last_twenty "/home" Examples.never_denied
           Examples.plain_split Examples.idle Examples.cli_session
           (Examples.cli_world Examples.busy_tree) "History" "History" []);
    reflexivity.
Defined.
